(** * DEX reputation scoring: the scoring engine and the stream processor

    A shallow embedding of [dex_model.py] (class [DexModel]) and of
    [kafka_service.py] (class [KafkaService]), with the properties of the
    scoring pipeline stated and proved over it.

    Numbers.  Python floats and NumPy floats are embedded as exact rationals
    ([Q]); Python integers as [Z].  Equalities between computed amounts are
    therefore stated with [==] (equality of rationals) and say nothing about
    binary rounding.

    Dictionaries are finite maps with string keys ([gmap string _]); the
    [set] objects the swap calculator builds are finite sets ([gset string]).

    The wall clock is an input: every function that reads it takes the value
    read as an argument (the scoring engine) or reads it from a recorded
    sequence of clock readings (the stream processor). *)

From Stdlib Require Import ZArith QArith Lqa Lia List String.
From stdpp Require Import gmap strings list fin_maps.

Open Scope string_scope.

(** ** Python built-ins on numbers *)

Module Py.

(** [min(a, b)]: [a] unless [b < a]. *)
Definition min (a b : Q) : Q := if Qle_bool a b then a else b.

(** [max(a, b)]: [a] unless [b > a]. *)
Definition max (a b : Q) : Q := if Qle_bool b a then a else b.

(** [int(x)]: truncation towards zero. *)
Definition int (x : Q) : Z := Z.quot (Qnum x) (Zpos (Qden x)).

End Py.

(** ** Exceptions and fallible computations *)

(** The exceptions the pipeline can see.  [Exception] stands for any other
    subclass of Python's [Exception] (a JSON decoding error, a schema
    validation error, an error of the producer), carrying its text. *)
Inductive exn : Type :=
| ValueError (msg : string)
| KeyError (key : string)
| Exception (msg : string).

(** [str(e)].  The text of a [KeyError] is the [repr] of the missing key. *)
Definition str_exn (e : exn) : string :=
  match e with
  | ValueError msg => msg
  | KeyError key => "'" ++ key ++ "'"
  | Exception msg => msg
  end.

Inductive result (A : Type) : Type :=
| Ok (a : A)
| Raise (e : exn).
Arguments Ok {A} a.
Arguments Raise {A} e.

Definition rbind {A B} (r : result A) (k : A -> result B) : result B :=
  match r with
  | Ok a => k a
  | Raise e => Raise e
  end.

Notation "'let*' x ':=' r 'in' k" := (rbind r (fun x => k))
  (at level 10, x name, r at level 200, k at level 200).

(** ** The inbound message ([types.py] and the keys [dex_model.py] reads)

    Every key of a transaction is read with [dict.get], so every field may be
    absent: [None] is an absent (or null) key. *)

Module Input.

Record Token := {
  amountUSD : option Q;
  symbol : option string
}.

Record TransactionDetail := {
  document_id : option string;
  action : option string;
  timestamp : option Z;
  protocol : option string;
  poolId : option string;
  poolName : option string;
  tokenIn : option Token;
  tokenOut : option Token;
  token0 : option Token;
  token1 : option Token
}.

Record ProtocolData := {
  protocolType : option string;
  transactions : list TransactionDetail
}.

Record WalletTransactionInput := {
  wallet_address : option string;
  data : list ProtocolData
}.

(** [tok.get('amountUSD', 0)] where [tok = tx.get(key, {})]. *)
Definition get_amountUSD (tok : option Token) : Q :=
  match tok with
  | Some t => default 0%Q (amountUSD t)
  | None => 0%Q
  end.

(** [tok.get('symbol')] where [tok = tx.get(key, {})]. *)
Definition get_symbol (tok : option Token) : option string :=
  match tok with
  | Some t => symbol t
  | None => None
  end.

End Input.

(** ** Rows and data frames

    A row is the dict built for one transaction.  [keys] records which keys
    the dict has, in insertion order; a cell whose key is absent is [None],
    as is a cell holding [None].  The type of the timestamp cell is a
    parameter: [option Z] as read from the input, [Z] once the rows whose
    timestamp does not convert have been dropped. *)

Record Row (T : Type) := {
  keys : list string;
  wallet_address : string;
  document_id : option string;
  action : option string;
  timestamp : T;
  protocol : option string;
  pool_id : option string;
  pool_name : option string;
  amount_usd : option Q;
  token_in_symbol : option string;
  token_out_symbol : option string;
  token0_symbol : option string;
  token1_symbol : option string
}.
Arguments keys {T} _.
Arguments wallet_address {T} _.
Arguments document_id {T} _.
Arguments action {T} _.
Arguments timestamp {T} _.
Arguments protocol {T} _.
Arguments pool_id {T} _.
Arguments pool_name {T} _.
Arguments amount_usd {T} _.
Arguments token_in_symbol {T} _.
Arguments token_out_symbol {T} _.
Arguments token0_symbol {T} _.
Arguments token1_symbol {T} _.

(** A [pandas.DataFrame]: its column labels and its rows. *)
Record DataFrame := {
  columns : list string;
  rows : list (Row Z)
}.

(** The seven keys every row has (lines 25-33). *)
Definition base_keys : list string :=
  ["wallet_address"; "document_id"; "action"; "timestamp"; "protocol";
   "pool_id"; "pool_name"].

(** The row literal of lines 25-33: no amount and no token symbol yet. *)
Definition base_row (wallet : string) (tx : Input.TransactionDetail)
  : Row (option Z) :=
  {| keys := base_keys;
     wallet_address := wallet;
     document_id := Input.document_id tx;
     action := Input.action tx;
     timestamp := Input.timestamp tx;
     protocol := Input.protocol tx;
     pool_id := Input.poolId tx;
     pool_name := Input.poolName tx;
     amount_usd := None;
     token_in_symbol := None;
     token_out_symbol := None;
     token0_symbol := None;
     token1_symbol := None |}.

(** Lines 37-41: the three keys a swap adds. *)
Definition set_swap_fields {T} (row : Row T) (tx : Input.TransactionDetail)
  : Row T :=
  let token_in := Input.tokenIn tx in
  let token_out := Input.tokenOut tx in
  {| keys := keys row ++ ["amount_usd"; "token_in_symbol"; "token_out_symbol"];
     wallet_address := wallet_address row;
     document_id := document_id row;
     action := action row;
     timestamp := timestamp row;
     protocol := protocol row;
     pool_id := pool_id row;
     pool_name := pool_name row;
     amount_usd :=
       Some (Py.max (Input.get_amountUSD token_in)
                    (Input.get_amountUSD token_out));
     token_in_symbol := Input.get_symbol token_in;
     token_out_symbol := Input.get_symbol token_out;
     token0_symbol := token0_symbol row;
     token1_symbol := token1_symbol row |}.

(** Lines 43-47: the three keys a deposit or a withdraw adds. *)
Definition set_liquidity_fields {T} (row : Row T)
    (tx : Input.TransactionDetail) : Row T :=
  let token0 := Input.token0 tx in
  let token1 := Input.token1 tx in
  {| keys := keys row ++ ["amount_usd"; "token0_symbol"; "token1_symbol"];
     wallet_address := wallet_address row;
     document_id := document_id row;
     action := action row;
     timestamp := timestamp row;
     protocol := protocol row;
     pool_id := pool_id row;
     pool_name := pool_name row;
     amount_usd :=
       Some (Input.get_amountUSD token0 + Input.get_amountUSD token1)%Q;
     token_in_symbol := token_in_symbol row;
     token_out_symbol := token_out_symbol row;
     token0_symbol := Input.get_symbol token0;
     token1_symbol := Input.get_symbol token1 |}.

(** The body of the inner loop (lines 25-49): the row appended for [tx].
    An action other than swap, deposit and withdraw takes neither branch, and
    its row has no [amount_usd] key. *)
Definition make_row (wallet : string) (tx : Input.TransactionDetail)
  : Row (option Z) :=
  let row := base_row wallet tx in
  if decide (Input.action tx = Some "swap") then
    set_swap_fields row tx
  else if decide (Input.action tx ∈ [Some "deposit"; Some "withdraw"]) then
    set_liquidity_fields row tx
  else
    row.

(** The outer loop (lines 20-49): the rows of the groups tagged "dexes", in
    order. *)
Definition collect_rows (wallet_data : Input.WalletTransactionInput)
  : list (Row (option Z)) :=
  let wallet := default "N/A" (Input.wallet_address wallet_data) in
  flat_map
    (fun category_data =>
       if decide (Input.protocolType category_data = Some "dexes")
       then map (make_row wallet) (Input.transactions category_data)
       else [])
    (Input.data wallet_data).

(** [pandas.to_datetime(cell, unit='s', errors='coerce')]: a missing value,
    and a second count outside the range of pandas' 64-bit nanosecond
    timestamps, convert to NaT ([None]). *)
Definition to_datetime (cell : option Z) : option Z :=
  match cell with
  | Some s => if decide (Z.abs s <= 9223372036)%Z then Some s else None
  | None => None
  end.

(** One row through lines 53-54: kept, with its timestamp, when the
    timestamp converts; dropped otherwise. *)
Definition dropna_datetime (row : Row (option Z)) : option (Row Z) :=
  match to_datetime (timestamp row) with
  | Some s =>
      Some {| keys := keys row;
              wallet_address := wallet_address row;
              document_id := document_id row;
              action := action row;
              timestamp := s;
              protocol := protocol row;
              pool_id := pool_id row;
              pool_name := pool_name row;
              amount_usd := amount_usd row;
              token_in_symbol := token_in_symbol row;
              token_out_symbol := token_out_symbol row;
              token0_symbol := token0_symbol row;
              token1_symbol := token1_symbol row |}
  | None => None
  end.

(** [DataFrame.empty]: some axis has length zero. *)
Definition df_empty (df : DataFrame) : bool :=
  match rows df, columns df with
  | _ :: _, _ :: _ => false
  | _, _ => true
  end.

(** [len(df)]. *)
Definition df_len (df : DataFrame) : Z := Z.of_nat (length (rows df)).

(** [_preprocess_dex_transactions].  [pd.DataFrame(rows)] has one column per
    key that occurs in some row.  A frame with a row is not empty and has the
    [timestamp] column, since every row has that key (lemma
    [timestamp_column_present]), so the guard of line 52 holds exactly when
    some row was collected: line 53 then adds the [datetime] column and line
    54 drops the rows in which it is NaT, leaving the columns as they are. *)
Definition _preprocess_dex_transactions
    (wallet_data : Input.WalletTransactionInput) : DataFrame :=
  let raw := collect_rows wallet_data in
  let cols := remove_dups (flat_map keys raw) in
  match raw with
  | [] => {| columns := cols; rows := [] |}
  | _ :: _ => {| columns := cols ++ ["datetime"];
                rows := omap dropna_datetime raw |}
  end.

(** ** Feature values

    A feature is a Python [int] or [float], or the NumPy scalar ([np.int64],
    [np.float64]) a pandas or NumPy reduction returns.  No calculator puts a
    list in a feature map. *)
Inductive value : Type :=
| VInt (z : Z)
| VFloat (q : Q)
| VNpInt (z : Z)
| VNpFloat (q : Q).

(** The number a feature value denotes. *)
Definition num (v : value) : Q :=
  match v with
  | VInt z | VNpInt z => inject_Z z
  | VFloat q | VNpFloat q => q
  end.

(** [d.get(key, dflt)] read as a number. *)
Definition get_num (d : gmap string value) (key : string) (dflt : Q) : Q :=
  match d !! key with
  | Some v => num v
  | None => dflt
  end.

(** ** pandas and NumPy operations *)

(** [df[name]] for a column that only some rows provide: a [KeyError] when no
    row of the frame was built with that key.  (The seven base columns exist
    in every frame with a row and are read directly from the rows.) *)
Definition column {A} (df : DataFrame) (name : string) (cell : Row Z -> A)
  : result (list A) :=
  if decide (name ∈ columns df) then Ok (cell <$> rows df)
  else Raise (KeyError name).

(** [df[df['action'] == a]]: the rows with that action, the same columns. *)
Definition where_action (df : DataFrame) (a : string) : DataFrame :=
  {| columns := columns df;
     rows := filter (fun r => action r = Some a) (rows df) |}.

(** [Series.sum()]: missing cells are skipped; the empty sum is zero. *)
Definition series_sum (cells : list (option Q)) : Q :=
  foldr (fun c acc => (default 0 c + acc)%Q) 0%Q cells.

(** [Series.nunique()]: the number of distinct cells that are not missing. *)
Definition nunique (cells : list (option string)) : Z :=
  Z.of_nat (size (list_to_set (omap id cells) : gset string)).

(** [set(series.dropna())]. *)
Definition dropna_set (cells : list (option string)) : gset string :=
  list_to_set (omap id cells).

(** [Series.min()] and [Series.max()] of a series with first cell [t]. *)
Definition series_min (t : Z) (ts : list Z) : Z := foldr Z.min t ts.
Definition series_max (t : Z) (ts : list Z) : Z := foldr Z.max t ts.

(** Sum of a Python list of numbers. *)
Definition qsum (xs : list Q) : Q := foldr Qplus 0%Q xs.

(** [np.mean(xs)] for a list with an element. *)
Definition np_mean (xs : list Q) : Q :=
  (qsum xs / inject_Z (Z.of_nat (length xs)))%Q.

(** ** [DexModel._calculate_holding_time] *)

(** The body of the loop over the deposits (lines 70-79): the holding time,
    in seconds, of one deposit. *)
Definition holding_time_seconds (current_time : Q) (withdraws : DataFrame)
    (deposit : Row Z) : Q :=
  let deposit_time := timestamp deposit in
  let future_withdraws :=
    filter (fun w => (deposit_time < timestamp w)%Z) (rows withdraws) in
  match timestamp <$> future_withdraws with
  | t :: ts => inject_Z (series_min t ts - deposit_time)
  | [] => (current_time - inject_Z deposit_time)%Q
  end.

(** [current_time] is the value [datetime.now().timestamp()] returns at
    line 67. *)
Definition _calculate_holding_time (current_time : Q)
    (deposits withdraws : DataFrame) : value :=
  if df_empty deposits then VFloat 0
  else
    let holding_times :=
      map (fun deposit =>
             (holding_time_seconds current_time withdraws deposit / 86400)%Q)
          (rows deposits) in
    match holding_times with
    | _ :: _ => VNpFloat (np_mean holding_times)
    | [] => VFloat 0
    end.

(** ** [DexModel._calculate_lp_features] *)

Definition _calculate_lp_features (current_time : Q) (df : DataFrame)
  : result (gmap string value) :=
  let deposits := where_action df "deposit" in
  let withdraws := where_action df "withdraw" in
  let* deposit_amounts := column deposits "amount_usd" amount_usd in
  let total_deposit_usd := series_sum deposit_amounts in
  let* withdraw_amounts := column withdraws "amount_usd" amount_usd in
  let total_withdraw_usd := series_sum withdraw_amounts in
  Ok (list_to_map
        [("total_deposit_usd", VNpFloat total_deposit_usd);
         ("total_withdraw_usd", VNpFloat total_withdraw_usd);
         ("num_deposits", VInt (df_len deposits));
         ("num_withdraws", VInt (df_len withdraws));
         ("withdraw_ratio",
           if Qle_bool total_deposit_usd 0 then VFloat 0
           else VNpFloat (total_withdraw_usd / total_deposit_usd));
         ("avg_hold_time_days",
           _calculate_holding_time current_time deposits withdraws);
         ("account_age_days",
           if df_empty df then VFloat 0
           else match timestamp <$> rows df with
                | t :: ts =>
                    VNpFloat
                      (inject_Z (series_max t ts - series_min t ts) / 86400)
                | [] => VFloat 0
                end);
         ("unique_pools", VInt (nunique (pool_id <$> rows df)))]).

(** ** [DexModel._calculate_swap_features] *)

Definition _calculate_swap_features (df : DataFrame)
  : result (gmap string value) :=
  let swaps := where_action df "swap" in
  if df_empty swaps then
    Ok (list_to_map
          [("total_swap_volume", VFloat 0); ("num_swaps", VInt 0);
           ("unique_pools_swapped", VInt 0); ("avg_swap_size", VFloat 0);
           ("token_diversity", VInt 0)])
  else
    let* swap_amounts := column swaps "amount_usd" amount_usd in
    let total_swap_volume := series_sum swap_amounts in
    let num_swaps := df_len swaps in
    let* in_symbols := column swaps "token_in_symbol" token_in_symbol in
    let tokens_in := dropna_set in_symbols in
    let* out_symbols := column swaps "token_out_symbol" token_out_symbol in
    let tokens_out := dropna_set out_symbols in
    let unique_tokens := tokens_in ∪ tokens_out in
    Ok (list_to_map
          [("total_swap_volume", VNpFloat total_swap_volume);
           ("num_swaps", VInt num_swaps);
           ("unique_pools_swapped", VInt (nunique (pool_id <$> rows swaps)));
           ("avg_swap_size",
             if decide (0 < num_swaps)%Z
             then VNpFloat (total_swap_volume / inject_Z num_swaps)
             else VFloat 0);
           ("token_diversity", VInt (Z.of_nat (size unique_tokens)))]).

(** ** [DexModel._calculate_final_score] *)

Definition volume_score_lp (lp_features : gmap string value) : Q :=
  Py.min (get_num lp_features "total_deposit_usd" 0 / 10000 * 300) 300.

Definition retention_score (lp_features : gmap string value) : Q :=
  Py.max 0 ((1 - get_num lp_features "withdraw_ratio" 0) * 250).

Definition holding_score (lp_features : gmap string value) : Q :=
  Py.min (get_num lp_features "avg_hold_time_days" 0 / 30 * 150) 150.

Definition lp_score (lp_features : gmap string value) : Q :=
  volume_score_lp lp_features + retention_score lp_features
  + holding_score lp_features.

Definition volume_score_swap (swap_features : gmap string value) : Q :=
  Py.min (get_num swap_features "total_swap_volume" 0 / 50000 * 250) 250.

Definition frequency_score_swap (swap_features : gmap string value) : Q :=
  Py.min (get_num swap_features "num_swaps" 0 * 10) 200.

Definition diversity_score_swap (swap_features : gmap string value) : Q :=
  Py.min (get_num swap_features "token_diversity" 0 * 20) 150.

Definition swap_score (swap_features : gmap string value) : Q :=
  volume_score_swap swap_features + frequency_score_swap swap_features
  + diversity_score_swap swap_features.

(** [{**lp_features, **swap_features}]: on a shared key the second map
    wins. *)
Definition _calculate_final_score (lp_features swap_features : gmap string value)
  : Q * gmap string value :=
  let final_score :=
    (lp_score lp_features * (6 # 10) + swap_score swap_features * (4 # 10))%Q in
  let all_features := swap_features ∪ lp_features in
  (final_score, all_features).

(** ** [DexModel._sanitize_features] *)

Definition sanitize_value (v : value) : value :=
  match v with
  | VNpInt z => VInt z
  | VNpFloat q => VFloat q
  | VInt z => VInt z
  | VFloat q => VFloat q
  end.

Definition _sanitize_features (features : gmap string value)
  : gmap string value :=
  sanitize_value <$> features.

(** ** [DexModel.process_wallet] *)

Definition no_transactions_message : string :=
  "No valid DEX transactions found for this wallet.".

Definition process_wallet (current_time : Q)
    (wallet_data : Input.WalletTransactionInput)
  : result (Q * gmap string value) :=
  let df := _preprocess_dex_transactions wallet_data in
  if df_empty df then Raise (ValueError no_transactions_message)
  else
    let* lp_features := _calculate_lp_features current_time df in
    let* swap_features := _calculate_swap_features df in
    let '(final_score, combined_features) :=
      _calculate_final_score lp_features swap_features in
    let sanitized_features := _sanitize_features combined_features in
    let sanitized_features :=
      <["transaction_count" := VInt (df_len df)]> sanitized_features in
    Ok (final_score, sanitized_features).

(** ** The stream processor ([kafka_service.py]) *)

(** The outbound records ([types.py]).  [zscore] is the score the string
    [f"{score:.18f}"] renders. *)
Module Output.

Record CategoryOutput := {
  category : string;
  score : Q;
  transaction_count : value;
  features : gmap string value
}.

Record ScoringResultSuccess := {
  s_wallet_address : string;
  zscore : Q;
  s_timestamp : Z;
  s_processing_time_ms : Z;
  categories : list CategoryOutput
}.

Record ScoringResultFailure := {
  wallet_address : string;
  error : string;
  timestamp : Z;
  processing_time_ms : Z
}.

(** The [message] argument of [_produce_message]. *)
Inductive Payload : Type :=
| Success (p : ScoringResultSuccess)
| Failure (p : ScoringResultFailure).

End Output.

(** What the processor needs of the world outside: the Kafka producer and the
    wall clock.

    [produce_flush tr topic message] is the effect of lines 41-42 (serialize,
    [producer.produce], [producer.flush]) on the transport [tr]: its next
    state, and the exception raised, if any.

    [clock n] is the value of the [n]-th reading of the wall clock since the
    processor was created. *)
Class Environment (Transport : Type) := {
  produce_flush :
    Transport -> string -> Output.Payload -> Transport * option exn;
  clock : nat -> Q
}.

(** A received message, by what lines 65-67 make of it.  Deserialization
    ([json]) and validation ([pydantic]) are libraries; their verdict on the
    bytes of the message is part of the input. *)
Inductive Message : Type :=
| Malformed (e : exn)
    (* [decode] or [json.loads] raises [e] *)
| Rejected (raw_wallet_address : option string) (e : exn)
    (* the JSON document, whose "wallet_address" entry is
       [raw_wallet_address], fails validation with [e] *)
| Validated (wallet_address : string) (data : list Input.ProtocolData).
    (* the document validates *)

(** [validated_data.dict()]. *)
Definition dict_of (wallet_address : string) (data : list Input.ProtocolData)
  : Input.WalletTransactionInput :=
  {| Input.wallet_address := Some wallet_address; Input.data := data |}.

(** What [consumer.poll(1.0)] returns: nothing, an error with its code, or a
    message. *)
Inductive PollResult : Type :=
| PollNone
| PollError (code : Z)
| PollMessage (m : Message).

(** [KafkaError._PARTITION_EOF]. *)
Definition _PARTITION_EOF : Z := (-191)%Z.

(** What happens to the worker, in order: a poll returns, or another thread
    calls [stop_consumer], which clears [is_running]. *)
Inductive Event : Type :=
| Poll (r : PollResult)
| StopRequested.

(** The fields of a [KafkaService] the loop touches, the transport, and the
    number of clock readings made so far. *)
Record State (Transport : Type) := {
  success_topic : string;
  failure_topic : string;
  producer : Transport;
  clock_reads : nat;
  is_running : bool;
  processed_count : Z;
  success_count : Z;
  failure_count : Z
}.
Arguments success_topic {Transport} _.
Arguments failure_topic {Transport} _.
Arguments producer {Transport} _.
Arguments clock_reads {Transport} _.
Arguments is_running {Transport} _.
Arguments processed_count {Transport} _.
Arguments success_count {Transport} _.
Arguments failure_count {Transport} _.

(** [__init__], lines 33-37, for given topics and producer. *)
Definition init {Transport} (success failure : string) (tr : Transport)
  : State Transport :=
  {| success_topic := success; failure_topic := failure; producer := tr;
     clock_reads := 0; is_running := false;
     processed_count := 0; success_count := 0; failure_count := 0 |}.

(** [get_stats]: processed_messages, success_count, failure_count and
    is_running. *)
Definition get_stats {Transport} (self : State Transport) : Z * Z * Z * bool :=
  (processed_count self, success_count self, failure_count self,
   is_running self).

(** The loop body runs in a monad of state and exceptions. *)
Definition M (Transport A : Type) : Type :=
  State Transport -> result A * State Transport.

Section Worker.
Context {Transport : Type} `{Environment Transport}.

Local Abbreviation St := (State Transport).
Local Abbreviation Cmd := (M Transport).

#[local] Instance M_ret : MRet Cmd := fun A a st => (Ok a, st).

#[local] Instance M_bind : MBind Cmd :=
  fun A B k c st =>
    match c st with
    | (Ok a, st') => k a st'
    | (Raise e, st') => (Raise e, st')
    end.

Definition raise {A} (e : exn) : Cmd A := fun st => (Raise e, st).

(** [try: body / except Exception as e: handler e]. *)
Definition try_except {A} (body : Cmd A) (handler : exn -> Cmd A) : Cmd A :=
  fun st =>
    match body st with
    | (Ok a, st') => (Ok a, st')
    | (Raise e, st') => handler e st'
    end.

(** [try: body / finally: final]. *)
Definition try_finally {A} (body : Cmd A) (final : Cmd unit) : Cmd A :=
  fun st =>
    let '(r, st') := body st in
    match final st' with
    | (Ok _, st'') => (r, st'')
    | (Raise e, st'') => (Raise e, st'')
    end.

(** [time.time()] and [datetime.now().timestamp()]. *)
Definition time_time : Cmd Q :=
  fun st =>
    (Ok (clock (clock_reads st)),
     {| success_topic := success_topic st;
        failure_topic := failure_topic st;
        producer := producer st;
        clock_reads := S (clock_reads st);
        is_running := is_running st;
        processed_count := processed_count st;
        success_count := success_count st;
        failure_count := failure_count st |}).

Definition _produce_message (topic : string) (message : Output.Payload)
  : Cmd unit :=
  fun st =>
    let '(tr, fault) := produce_flush (producer st) topic message in
    (match fault with Some e => Raise e | None => Ok tt end,
     {| success_topic := success_topic st;
        failure_topic := failure_topic st;
        producer := tr;
        clock_reads := clock_reads st;
        is_running := is_running st;
        processed_count := processed_count st;
        success_count := success_count st;
        failure_count := failure_count st |}).

(** [self.success_count += 1] *)
Definition incr_success : Cmd unit :=
  fun st =>
    (Ok tt,
     {| success_topic := success_topic st;
        failure_topic := failure_topic st;
        producer := producer st;
        clock_reads := clock_reads st;
        is_running := is_running st;
        processed_count := processed_count st;
        success_count := success_count st + 1;
        failure_count := failure_count st |}).

(** [self.failure_count += 1] *)
Definition incr_failure : Cmd unit :=
  fun st =>
    (Ok tt,
     {| success_topic := success_topic st;
        failure_topic := failure_topic st;
        producer := producer st;
        clock_reads := clock_reads st;
        is_running := is_running st;
        processed_count := processed_count st;
        success_count := success_count st;
        failure_count := failure_count st + 1 |}).

(** [self.processed_count += 1] *)
Definition incr_processed : Cmd unit :=
  fun st =>
    (Ok tt,
     {| success_topic := success_topic st;
        failure_topic := failure_topic st;
        producer := producer st;
        clock_reads := clock_reads st;
        is_running := is_running st;
        processed_count := processed_count st + 1;
        success_count := success_count st;
        failure_count := failure_count st |}).

Definition get_success_topic : Cmd string :=
  fun st => (Ok (success_topic st), st).

Definition get_failure_topic : Cmd string :=
  fun st => (Ok (failure_topic st), st).

(** Lines 65-67: the validated batch and its wallet address, or the
    exception raised before [wallet_address] is assigned. *)
Definition deserialize_and_validate (m : Message)
  : result (string * Input.WalletTransactionInput) :=
  match m with
  | Malformed e => Raise e
  | Rejected _ e => Raise e
  | Validated wallet_address data =>
      Ok (wallet_address, dict_of wallet_address data)
  end.

(** Lines 70-87, with [wallet_address] assigned.  The model reads the clock
    once for the scoring engine, whether or not line 67 of the engine is
    reached. *)
Definition score_and_send (start_time : Q) (wallet_address : string)
    (wallet_data : Input.WalletTransactionInput) : Cmd unit :=
  now ← time_time;
  match process_wallet now wallet_data with
  | Raise e => raise e
  | Ok (score, features) =>
      t ← time_time;
      let processing_time_ms := Py.int ((t - start_time) * 1000) in
      t' ← time_time;
      match features !! "transaction_count" with
      | None => raise (KeyError "transaction_count")
      | Some transaction_count =>
          let features := delete "transaction_count" features in
          let success_payload :=
            {| Output.s_wallet_address := wallet_address;
               Output.zscore := score;
               Output.s_timestamp := Py.int t';
               Output.s_processing_time_ms := processing_time_ms;
               Output.categories :=
                 [{| Output.category := "dexes";
                     Output.score := score;
                     Output.transaction_count := transaction_count;
                     Output.features := features |}] |} in
          topic ← get_success_topic;
          _produce_message topic (Output.Success success_payload);;
          incr_success
      end
  end.

(** The record the handler of lines 89-100 builds. *)
Definition failure_payload (wallet_address : string) (e : exn)
    (timestamp processing_time_ms : Z) : Output.ScoringResultFailure :=
  {| Output.wallet_address := wallet_address;
     Output.error := str_exn e;
     Output.timestamp := timestamp;
     Output.processing_time_ms := processing_time_ms |}.

(** Lines 89-100, entered with the value [wallet_address] has when the
    exception is raised. *)
Definition on_exception (start_time : Q) (wallet_address : string) (e : exn)
  : Cmd unit :=
  t ← time_time;
  let processing_time_ms := Py.int ((t - start_time) * 1000) in
  t' ← time_time;
  topic ← get_failure_topic;
  _produce_message topic
    (Output.Failure
       (failure_payload wallet_address e (Py.int t') processing_time_ms));;
  incr_failure.

(** Lines 61-103: one received message.  [wallet_address] is "unknown"
    until line 67 assigns it, so the handler runs with "unknown" when
    lines 65-66 raise and with the validated address afterwards. *)
Definition handle_message (m : Message) : Cmd unit :=
  start_time ← time_time;
  try_finally
    (match deserialize_and_validate m with
     | Raise e => on_exception start_time "unknown" e
     | Ok (wallet_address, wallet_data) =>
         try_except
           (score_and_send start_time wallet_address wallet_data)
           (on_exception start_time wallet_address)
     end)
    incr_processed.

(** How a run of the loop over finitely many events ends. *)
Inductive LoopEnd : Type :=
| Polling          (* still in the loop, waiting for the next event *)
| Closed           (* the loop was left and the consumer closed *)
| Crashed (e : exn). (* an exception left the loop *)

Definition stop (st : St) : St :=
  {| success_topic := success_topic st;
     failure_topic := failure_topic st;
     producer := producer st;
     clock_reads := clock_reads st;
     is_running := false;
     processed_count := processed_count st;
     success_count := success_count st;
     failure_count := failure_count st |}.

(** [_processing_loop], lines 49-105. *)
Fixpoint _processing_loop (events : list Event) (st : St) : LoopEnd * St :=
  if is_running st then
    match events with
    | [] => (Polling, st)
    | StopRequested :: events => _processing_loop events (stop st)
    | Poll PollNone :: events => _processing_loop events st
    | Poll (PollError code) :: events =>
        if decide (code = _PARTITION_EOF) then _processing_loop events st
        else (Closed, st)
    | Poll (PollMessage m) :: events =>
        match handle_message m st with
        | (Ok _, st') => _processing_loop events st'
        | (Raise e, st') => (Crashed e, st')
        end
    end
  else (Closed, st).

End Worker.

(** ** The properties, in the words of the specification *)


(** The transactions normalization reads: those of the groups tagged
    "dexes". *)
Definition dex_transactions (wallet_data : Input.WalletTransactionInput)
  : list Input.TransactionDetail :=
  flat_map
    (fun g =>
       if decide (Input.protocolType g = Some "dexes")
       then Input.transactions g else [])
    (Input.data wallet_data).

(** The number of retained transactions: the entries of the groups tagged
    "dexes" whose timestamp parses, whatever their action. *)
Definition retained_count (wallet_data : Input.WalletTransactionInput) : Z :=
  Z.of_nat
    (length
       (filter (fun tx => is_Some (to_datetime (Input.timestamp tx)))
               (dex_transactions wallet_data))).

(** [w] is the smallest of the timestamps [ws] that is strictly greater than
    [d]. *)
Definition earliest_after (d : Z) (ws : list Z) (w : Z) : Prop :=
  w ∈ ws /\ (d < w)%Z /\ forall w', w' ∈ ws -> (d < w')%Z -> (w <= w')%Z.

(** The holding duration, in seconds, of a deposit made at [d] against the
    withdraw timestamps [ws], read at time [now]. *)
Definition holding_duration (now : Q) (ws : list Z) (d : Z) (secs : Q) : Prop :=
  (exists w, earliest_after d ws w /\ secs = inject_Z (w - d))
  \/ ((forall w, w ∈ ws -> (w <= d)%Z) /\ secs = (now - inject_Z d)%Q).

(** Every retained deposit has a retained withdraw with a strictly later
    timestamp. *)
Definition every_deposit_matched (df : DataFrame) : Prop :=
  forall d, d ∈ rows df -> action d = Some "deposit" ->
    exists w, w ∈ rows df /\ action w = Some "withdraw"
              /\ (timestamp d < timestamp w)%Z.



(** The counters agree: every processed message was a success or a
    failure. *)
Definition counters_agree {Transport} (st : State Transport) : Prop :=
  processed_count st = (success_count st + failure_count st)%Z.

(** No counter of [st'] is below its value in [st]. *)
Definition counters_le {Transport} (st st' : State Transport) : Prop :=
  (processed_count st <= processed_count st')%Z
  /\ (success_count st <= success_count st')%Z
  /\ (failure_count st <= failure_count st')%Z.

(** The exception raised on a message before any outcome is sent: by
    deserialization, by validation, or by the scoring engine read at time
    [now]. *)
Definition message_error (now : Q) (m : Message) : option exn :=
  match m with
  | Malformed e => Some e
  | Rejected _ e => Some e
  | Validated wallet_address data =>
      match process_wallet now (dict_of wallet_address data) with
      | Raise e => Some e
      | Ok _ => None
      end
  end.

(** The wallet address the failure record of a message carries. *)
Definition failure_address (m : Message) : string :=
  match m with
  | Malformed _ => "unknown"
  | Rejected _ _ => "unknown"
  | Validated wallet_address _ => wallet_address
  end.

(** A poll error other than the end-of-partition signal. *)
Definition fatal_poll (ev : Event) : Prop :=
  exists code, ev = Poll (PollError code) /\ code <> _PARTITION_EOF.

(** ** Fixtures *)

Definition token (usd : Q) (sym : string) : option Input.Token :=
  Some {| Input.amountUSD := Some usd; Input.symbol := Some sym |}.

Definition transaction (act : string) (ts : Z)
    (tin tout t0 t1 : option Input.Token) : Input.TransactionDetail :=
  {| Input.document_id := Some "507f1f77bcf86cd799439011";
     Input.action := Some act;
     Input.timestamp := Some ts;
     Input.protocol := Some "uniswap_v3";
     Input.poolId := Some "0x88e6a0c2ddd26feeb64f039a2c41296fcb3f5640";
     Input.poolName := Some "Uniswap V3 USDC/WETH 0.05%";
     Input.tokenIn := tin; Input.tokenOut := tout;
     Input.token0 := t0; Input.token1 := t1 |}.

Definition dexes (txs : list Input.TransactionDetail) : Input.ProtocolData :=
  {| Input.protocolType := Some "dexes"; Input.transactions := txs |}.

Definition sample_address : string :=
  "0x742d35Cc6634C0532925a3b8D4C9db96590e4265".

(** The swap, the deposit and the withdraw of [SAMPLE_WALLET_MESSAGE]
    ([test_challenge.py]). *)
Definition sample_swap : Input.TransactionDetail :=
  transaction "swap" 1703980800
    (token 1000 "USDC") (token 1000 "WETH") None None.

Definition sample_deposit : Input.TransactionDetail :=
  transaction "deposit" 1703980900
    None None (token 500 "USDC") (token 500 "WETH").

Definition sample_withdraw : Input.TransactionDetail :=
  transaction "withdraw" 1703981800
    None None (token 250 "USDC") (token 250 "WETH").

Definition sample_data : list Input.ProtocolData :=
  [dexes [sample_swap; sample_deposit; sample_withdraw]].

Definition sample_wallet_message : Input.WalletTransactionInput :=
  dict_of sample_address sample_data.

(** A batch whose only transaction is a deposit dated 2100-01-01. *)
Definition future_deposit_data : list Input.ProtocolData :=
  [dexes [transaction "deposit" 4102444800 None None None None]].

(** A batch whose only transaction has an action the normalizer does not
    know. *)
Definition unknown_action_data : list Input.ProtocolData :=
  [dexes [transaction "transfer" 1703980800 None None None None]].

(** A batch with no group tagged "dexes". *)
Definition lending_data : list Input.ProtocolData :=
  [{| Input.protocolType := Some "lending";
      Input.transactions := [sample_deposit] |}].

(** A clock reading: 2026-11-03 00:00:00 UTC. *)
Definition sample_now : Q := 1793664000.

(** An environment whose transport records what it is given and never
    fails, and whose clock advances by a second per reading. *)
Definition recording : Environment (list (string * Output.Payload)) :=
  {| produce_flush := fun log topic message => ((log ++ [(topic, message)])%list, None);
     clock := fun n => (sample_now + inject_Z (Z.of_nat n))%Q |}.

(** An environment whose transport refuses everything. *)
Definition refusing : Environment (list (string * Output.Payload)) :=
  {| produce_flush :=
       fun log topic message => (log, Some (Exception "Local: Queue full"));
     clock := fun n => (sample_now + inject_Z (Z.of_nat n))%Q |}.

(** A running processor with zeroed counters. *)
Definition started : State (list (string * Output.Payload)) :=
  {| success_topic := "wallet-scores-success";
     failure_topic := "wallet-scores-failure";
     producer := [];
     clock_reads := 0;
     is_running := true;
     processed_count := 0;
     success_count := 0;
     failure_count := 0 |}.

(** The row normalization retains for [sample_deposit]. *)
Definition sample_deposit_row : Row Z :=
  set_liquidity_fields
    {| keys := base_keys;
       wallet_address := sample_address;
       document_id := Input.document_id sample_deposit;
       action := Some "deposit";
       timestamp := 1703980900%Z;
       protocol := Input.protocol sample_deposit;
       pool_id := Input.poolId sample_deposit;
       pool_name := Input.poolName sample_deposit;
       amount_usd := None;
       token_in_symbol := None;
       token_out_symbol := None;
       token0_symbol := None;
       token1_symbol := None |}
    sample_deposit.

(** Two deposits followed by one withdraw. *)
Definition later_deposit : Input.TransactionDetail :=
  transaction "deposit" 1703981000
    None None (token 100 "USDC") (token 100 "WETH").

Definition reuse_data : list Input.ProtocolData :=
  [dexes [sample_deposit; later_deposit; sample_withdraw]].

Definition reuse_frame : DataFrame :=
  _preprocess_dex_transactions (dict_of sample_address reuse_data).

(** The row normalization retains for [later_deposit]. *)
Definition later_deposit_row : Row Z :=
  set_liquidity_fields
    {| keys := base_keys;
       wallet_address := sample_address;
       document_id := Input.document_id later_deposit;
       action := Some "deposit";
       timestamp := 1703981000%Z;
       protocol := Input.protocol later_deposit;
       pool_id := Input.poolId later_deposit;
       pool_name := Input.poolName later_deposit;
       amount_usd := None;
       token_in_symbol := None;
       token_out_symbol := None;
       token0_symbol := None;
       token1_symbol := None |}
    later_deposit.

(** ** The lifecycle of the worker ([start_consumer], [stop_consumer]) *)

(** [start_consumer], lines 108-114.  The boolean tells whether a worker
    thread was created and started. *)
Definition start_consumer {Transport} (self : State Transport)
  : State Transport * bool :=
  if is_running self then (self, false)
  else
    ({| success_topic := success_topic self;
        failure_topic := failure_topic self;
        producer := producer self;
        clock_reads := clock_reads self;
        is_running := true;
        processed_count := processed_count self;
        success_count := success_count self;
        failure_count := failure_count self |},
     true).

(** [stop_consumer], lines 116-121.  The boolean tells whether the worker
    thread was joined; the join itself is the rest of the worker's run, which
    sees the cleared flag at its next test of the loop condition. *)
Definition stop_consumer {Transport} (self : State Transport)
  : State Transport * bool :=
  if is_running self then (stop self, true) else (self, false).

(** ** The declared shape of the features ([types.py]) *)

(** The fields of [CategoryFeatures], lines 28-43. *)
Definition CategoryFeatures_fields : list string :=
  ["total_deposit_usd"; "total_withdraw_usd"; "num_deposits"; "num_withdraws";
   "withdraw_ratio"; "avg_hold_time_days"; "account_age_days"; "unique_pools";
   "total_swap_volume"; "num_swaps"; "unique_pools_swapped"; "avg_swap_size";
   "token_diversity"; "transaction_count"].

(** ** Further notions used in the statements *)

(** The action selects a branch of the row builder. *)
Definition known_action (tx : Input.TransactionDetail) : Prop :=
  Input.action tx ∈ [Some "swap"; Some "deposit"; Some "withdraw"].

(** A plain Python number, as opposed to a NumPy scalar. *)
Definition python_number (v : value) : Prop :=
  match v with
  | VInt _ | VFloat _ => True
  | VNpInt _ | VNpFloat _ => False
  end.

(** The feature map the swap calculator returns without swaps
    (lines 109-112). *)
Definition zero_swap_features : gmap string value :=
  list_to_map
    [("total_swap_volume", VFloat 0); ("num_swaps", VInt 0);
     ("unique_pools_swapped", VInt 0); ("avg_swap_size", VFloat 0);
     ("token_diversity", VInt 0)].

(** The number of polls that returned a message. *)
Fixpoint message_count (events : list Event) : Z :=
  match events with
  | [] => 0
  | Poll (PollMessage _) :: events => 1 + message_count events
  | _ :: events => message_count events
  end.

(** An environment observed: the transport paired with the list of what was
    handed to the producer, in order, accepted or not. *)
Definition observed {Transport} (E : Environment Transport)
  : Environment (Transport * list (string * Output.Payload)) :=
  {| produce_flush :=
       fun tr topic message =>
         let sent := @produce_flush _ E tr.1 topic message in
         ((sent.1, (tr.2 ++ [(topic, message)])%list), sent.2);
     clock := @clock _ E |}.

(** A success record goes to the success topic and a failure record to the
    failure topic. *)
Definition well_routed (success failure : string)
    (entry : string * Output.Payload) : Prop :=
  match entry.2 with
  | Output.Success _ => entry.1 = success
  | Output.Failure _ => entry.1 = failure
  end.


(** An environment whose producer refuses success records and accepts
    failure records. *)
Definition refusing_success : Environment (list (string * Output.Payload)) :=
  {| produce_flush :=
       fun log topic message =>
         match message with
         | Output.Success _ => (log, Some (Exception "Message size too large"))
         | Output.Failure _ => ((log ++ [(topic, message)])%list, None)
         end;
     clock := fun n => (sample_now + inject_Z (Z.of_nat n))%Q |}.

(** [started], for the observed recording environment. *)
Definition started_observed
  : State (list (string * Output.Payload) * list (string * Output.Payload)) :=
  {| success_topic := "wallet-scores-success";
     failure_topic := "wallet-scores-failure";
     producer := ([], []);
     clock_reads := 0;
     is_running := true;
     processed_count := 0;
     success_count := 0;
     failure_count := 0 |}.

(** Two frames with the same rows, in some order, and the same column
    labels. *)
Definition same_frame (df df' : DataFrame) : Prop :=
  rows df ≡ₚ rows df'
  /\ forall key, key ∈ columns df <-> key ∈ columns df'.

(** Two feature maps with the same keys and, under each key, values that
    denote the same number. *)
Definition same_features (m m' : gmap string value) : Prop :=
  dom m = dom m'
  /\ forall key, (get_num m key 0 == get_num m' key 0)%Q.

(** Two results of the scoring engine that agree: the same exception, or
    equal scores and the same features. *)
Definition same_result (r r' : result (Q * gmap string value)) : Prop :=
  match r, r' with
  | Ok (s, f), Ok (s', f') => (s == s')%Q /\ same_features f f'
  | Raise e, Raise e' => e = e'
  | _, _ => False
  end.

(** [sample_data] with its transactions in the opposite order. *)
Definition reversed_sample_data : list Input.ProtocolData :=
  [dexes [sample_withdraw; sample_deposit; sample_swap]].

(** [EXPECTED_FEATURES] ([test_challenge.py], lines 87-95). *)
Definition EXPECTED_FEATURES : list (string * Q) :=
  [("total_deposit_usd", 500%Q); ("total_withdraw_usd", 500%Q);
   ("num_deposits", 1%Q); ("num_withdraws", 1%Q);
   ("total_swap_volume", 1000%Q); ("num_swaps", 1%Q); ("unique_pools", 1%Q)].

(** * Proofs *)

(** ** Python built-ins *)

Lemma py_min_le_l a b : (Py.min a b <= a)%Q.
Proof.
  unfold Py.min. destruct (Qle_bool a b) eqn:E; [lra|].
  assert (~ (a <= b)%Q) by (rewrite <- Qle_bool_iff; congruence). lra.
Qed.

Lemma py_min_le_r a b : (Py.min a b <= b)%Q.
Proof.
  unfold Py.min. destruct (Qle_bool a b) eqn:E; [|lra].
  now apply Qle_bool_iff.
Qed.

Lemma py_min_glb a b c : (c <= a)%Q -> (c <= b)%Q -> (c <= Py.min a b)%Q.
Proof. unfold Py.min. now destruct (Qle_bool a b). Qed.

Lemma py_max_ge_l a b : (a <= Py.max a b)%Q.
Proof.
  unfold Py.max. destruct (Qle_bool b a) eqn:E; [lra|].
  assert (~ (b <= a)%Q) by (rewrite <- Qle_bool_iff; congruence). lra.
Qed.

Lemma py_max_ge_r a b : (b <= Py.max a b)%Q.
Proof.
  unfold Py.max. destruct (Qle_bool b a) eqn:E; [|lra].
  now apply Qle_bool_iff.
Qed.

Lemma py_max_lub a b c : (a <= c)%Q -> (b <= c)%Q -> (Py.max a b <= c)%Q.
Proof. unfold Py.max. now destruct (Qle_bool b a). Qed.


(** ** Normalization *)

Lemma collect_rows_eq wallet_data :
  collect_rows wallet_data
  = map (make_row (default "N/A" (Input.wallet_address wallet_data)))
        (dex_transactions wallet_data).
Proof.
  unfold collect_rows, dex_transactions.
  induction (Input.data wallet_data) as [|g gs IH]; [reflexivity|].
  cbn [flat_map]. rewrite IH, map_app.
  now destruct (decide (Input.protocolType g = Some "dexes")).
Qed.

Lemma make_row_has_timestamp wallet tx : "timestamp" ∈ keys (make_row wallet tx).
Proof.
  assert (Hbase : "timestamp" ∈ base_keys)
    by (unfold base_keys; rewrite !elem_of_cons; auto).
  unfold make_row.
  destruct (decide _); [|destruct (decide _)]; cbn [keys set_swap_fields
    set_liquidity_fields base_row]; rewrite ?elem_of_app; auto.
Qed.

(** The guard of line 52 holds of every frame built from at least one row. *)
Lemma timestamp_column_present wallet_data :
  collect_rows wallet_data <> [] ->
  "timestamp" ∈ remove_dups (flat_map keys (collect_rows wallet_data)).
Proof.
  rewrite collect_rows_eq.
  destruct (dex_transactions wallet_data) as [|tx txs];
    [intros Hne; now destruct Hne|].
  intros _. apply elem_of_remove_dups. cbn [map flat_map].
  apply elem_of_app. left. apply make_row_has_timestamp.
Qed.

Lemma rows_preprocess wallet_data :
  rows (_preprocess_dex_transactions wallet_data)
  = omap dropna_datetime (collect_rows wallet_data).
Proof.
  unfold _preprocess_dex_transactions.
  now destruct (collect_rows wallet_data).
Qed.

Lemma dropna_datetime_Some {row : Row (option Z)} {r : Row Z} :
  dropna_datetime row = Some r ->
  to_datetime (timestamp row) = Some (timestamp r)
  /\ keys r = keys row
  /\ action r = action row
  /\ pool_id r = pool_id row
  /\ amount_usd r = amount_usd row
  /\ token_in_symbol r = token_in_symbol row
  /\ token_out_symbol r = token_out_symbol row.
Proof.
  unfold dropna_datetime. destruct (to_datetime (timestamp row)); [|discriminate].
  intros [= <-]. cbn. auto 10.
Qed.

Lemma make_row_action wallet tx : action (make_row wallet tx) = Input.action tx.
Proof. unfold make_row. now repeat destruct (decide _). Qed.

Lemma make_row_timestamp wallet tx :
  timestamp (make_row wallet tx) = Input.timestamp tx.
Proof. unfold make_row. now repeat destruct (decide _). Qed.

(** Every retained row is the row of a transaction of a group tagged
    "dexes" whose timestamp converts. *)
Lemma retained_row_origin wallet_data r :
  r ∈ rows (_preprocess_dex_transactions wallet_data) ->
  exists tx,
    tx ∈ dex_transactions wallet_data
    /\ dropna_datetime
         (make_row (default "N/A" (Input.wallet_address wallet_data)) tx)
       = Some r.
Proof.
  rewrite rows_preprocess, collect_rows_eq, list_elem_of_omap.
  intros (row & Hin & Hr).
  apply list_elem_of_In, in_map_iff in Hin as (tx & <- & Hin).
  apply list_elem_of_In in Hin. eauto.
Qed.

(** The frame is empty exactly when no row is retained. *)
Lemma df_empty_preprocess wallet_data :
  df_empty (_preprocess_dex_transactions wallet_data) = true
  <-> rows (_preprocess_dex_transactions wallet_data) = [].
Proof.
  unfold _preprocess_dex_transactions, df_empty.
  destruct (collect_rows wallet_data) as [|row raw]; cbn [rows columns]; [easy|].
  destruct (omap dropna_datetime (row :: raw)); [easy|].
  destruct (_ ++ ["datetime"])%list eqn:E; [|easy].
  now apply app_eq_nil in E as [_ ?].
Qed.

Lemma retained_count_eq wallet_data :
  df_len (_preprocess_dex_transactions wallet_data) = retained_count wallet_data.
Proof.
  unfold df_len, retained_count. rewrite rows_preprocess, collect_rows_eq.
  f_equal. induction (dex_transactions wallet_data) as [|tx txs IH]; [reflexivity|].
  cbn [map omap list_omap]. rewrite filter_cons.
  unfold dropna_datetime at 1. rewrite make_row_timestamp.
  destruct (to_datetime (Input.timestamp tx)) eqn:E.
  - rewrite decide_True by eauto. cbn. now rewrite IH.
  - rewrite decide_False by (intros [? ?]; discriminate). exact IH.
Qed.



(** ** Feature maps *)

Lemma num_sanitize v : num (sanitize_value v) = num v.
Proof. now destruct v. Qed.

Lemma columns_where_action df a : columns (where_action df a) = columns df.
Proof. reflexivity. Qed.



(** What the scoring formula reads in a liquidity feature map, and the keys
    the map does not have. *)
Lemma lp_features_lookup now df lp :
  _calculate_lp_features now df = Ok lp ->
  let deposits := where_action df "deposit" in
  let withdraws := where_action df "withdraw" in
  let total_deposit_usd := series_sum (amount_usd <$> rows deposits) in
  let total_withdraw_usd := series_sum (amount_usd <$> rows withdraws) in
  get_num lp "total_deposit_usd" 0 = total_deposit_usd
  /\ get_num lp "withdraw_ratio" 0
     = (if Qle_bool total_deposit_usd 0 then 0
        else total_withdraw_usd / total_deposit_usd)%Q
  /\ get_num lp "avg_hold_time_days" 0
     = num (_calculate_holding_time now deposits withdraws)
  /\ lp !! "total_withdraw_usd" = Some (VNpFloat total_withdraw_usd)
  /\ lp !! "num_deposits" = Some (VInt (df_len deposits))
  /\ lp !! "num_withdraws" = Some (VInt (df_len withdraws))
  /\ lp !! "total_swap_volume" = None
  /\ lp !! "num_swaps" = None
  /\ lp !! "token_diversity" = None.
Proof.
  unfold _calculate_lp_features, column. cbn [columns where_action].
  destruct (decide _); [|discriminate]. cbn [rbind rows].
  intros [= <-]. cbv zeta. unfold get_num.
  repeat split; try reflexivity.
  change (_ !! "withdraw_ratio") with
    (Some (if Qle_bool (series_sum (amount_usd <$> rows (where_action df "deposit"))) 0
           then VFloat 0
           else VNpFloat
                  (series_sum (amount_usd <$> rows (where_action df "withdraw"))
                   / series_sum (amount_usd <$> rows (where_action df "deposit"))))).
  now destruct (Qle_bool _ _).
Qed.


(** A feature of the sanitized output denotes the number the calculators
    computed. *)
Lemma get_num_output (features : gmap string value) (count : value)
    (key : string) (dflt : Q) :
  key <> "transaction_count" ->
  get_num (<["transaction_count" := count]> (_sanitize_features features))
          key dflt
  = get_num features key dflt.
Proof.
  intros Hne. unfold get_num, _sanitize_features.
  rewrite lookup_insert_ne by congruence. rewrite lookup_fmap.
  destruct (features !! key); [apply num_sanitize|reflexivity].
Qed.

Lemma get_num_union_l (swap lp : gmap string value) key dflt :
  is_Some (swap !! key) ->
  get_num (swap ∪ lp) key dflt = get_num swap key dflt.
Proof.
  intros [v Hv]. unfold get_num.
  now rewrite (lookup_union_Some_l swap lp key v Hv), Hv.
Qed.

Lemma get_num_union_r (swap lp : gmap string value) key dflt :
  swap !! key = None ->
  get_num (swap ∪ lp) key dflt = get_num lp key dflt.
Proof. intros Hv. unfold get_num. now rewrite lookup_union_r. Qed.

(** What [process_wallet] does on a frame that is not empty. *)
Lemma process_wallet_ok now wallet_data s f :
  process_wallet now wallet_data = Ok (s, f) ->
  let df := _preprocess_dex_transactions wallet_data in
  exists lp swap,
    df_empty df = false
    /\ _calculate_lp_features now df = Ok lp
    /\ _calculate_swap_features df = Ok swap
    /\ s = (lp_score lp * (6 # 10) + swap_score swap * (4 # 10))%Q
    /\ f = <["transaction_count" := VInt (df_len df)]>
             (_sanitize_features (swap ∪ lp)).
Proof.
  unfold process_wallet. destruct (df_empty _); [discriminate|].
  destruct (_calculate_lp_features _ _) as [lp|]; [|discriminate].
  destruct (_calculate_swap_features _) as [swap|]; [|discriminate].
  cbn. intros [= <- <-]. now exists lp, swap.
Qed.

(** ** Bounds on the features *)



Lemma length_pos_Q {A} (x : A) (xs : list A) :
  (0 < inject_Z (Z.of_nat (length (x :: xs))))%Q.
Proof. change 0%Q with (inject_Z 0). rewrite <- Zlt_Qlt. cbn [length]. lia. Qed.



Lemma series_min_le (t : Z) (ts : list Z) w :
  w ∈ t :: ts -> (series_min t ts <= w)%Z.
Proof.
  induction ts as [|u ts IH]; cbn.
  - rewrite elem_of_cons, elem_of_nil. intros [-> | []]. lia.
  - change (foldr Z.min t ts) with (series_min t ts).
    rewrite !elem_of_cons. intros [-> | [-> | Hin]].
    + assert (series_min t ts <= t)%Z by (apply IH; left). lia.
    + lia.
    + assert (series_min t ts <= w)%Z by (apply IH; now right). lia.
Qed.

Lemma series_min_in (t : Z) (ts : list Z) : series_min t ts ∈ t :: ts.
Proof.
  induction ts as [|u ts IH]; cbn; [left|].
  change (foldr Z.min t ts) with (series_min t ts).
  destruct (Z.min_spec u (series_min t ts)) as [[_ ->] | [_ ->]].
  - right; left.
  - apply elem_of_cons in IH as [-> | IH]; [left | right; now right].
Qed.

(** The timestamps line 72 selects for a deposit made at [d]. *)
Lemma future_withdraws_spec (d : Z) (withdraws : DataFrame) w :
  w ∈ timestamp <$> filter (fun r => (d < timestamp r)%Z) (rows withdraws)
  <-> w ∈ timestamp <$> rows withdraws /\ (d < w)%Z.
Proof.
  rewrite !list_elem_of_fmap. split.
  - intros (r & -> & Hr). apply list_elem_of_filter in Hr as [Hlt Hr]. eauto.
  - intros [(r & -> & Hr) Hlt]. exists r. split; [reflexivity|].
    now apply list_elem_of_filter.
Qed.





(** ** The score *)








(** ** The transaction count *)

(** C8.  For every batch the engine scores, the [transaction_count] entry of
    the returned features is the number of transactions of the groups tagged
    "dexes" whose timestamp parses, whatever their action. *)
Theorem transaction_count_is_retained_count now wallet_data s f :
  process_wallet now wallet_data = Ok (s, f) ->
  f !! "transaction_count" = Some (VInt (retained_count wallet_data)).
Proof.
  intros Hrun.
  apply process_wallet_ok in Hrun as (lp & swap & _ & _ & _ & _ & ->).
  now rewrite lookup_insert_eq, retained_count_eq.
Qed.

Lemma transaction_count_is_retained_count_witness :
  exists s f,
    process_wallet sample_now sample_wallet_message = Ok (s, f)
    /\ f !! "transaction_count" = Some (VInt 3).
Proof.
  destruct (process_wallet sample_now sample_wallet_message)
    as [[s f]|e] eqn:Hrun; [|discriminate Hrun].
  exists s, f. split; [reflexivity|].
  exact (transaction_count_is_retained_count
           sample_now sample_wallet_message s f Hrun).
Defined.

(** An unrecognized action counts: a swap and a transfer are reported as two
    transactions. *)
Example transaction_count_counts_unknown_actions :
  match
    process_wallet sample_now
      (dict_of sample_address
         [dexes [sample_swap;
                 transaction "transfer" 1703980800 None None None None]])
  with
  | Ok (_, f) => f !! "transaction_count" = Some (VInt 2)
  | Raise _ => False
  end.
Proof. reflexivity. Qed.

(** ** The empty batch *)

Lemma no_dex_group_no_rows wallet_data :
  (forall g, g ∈ Input.data wallet_data -> Input.protocolType g <> Some "dexes") ->
  rows (_preprocess_dex_transactions wallet_data) = [].
Proof.
  intros Hno. rewrite rows_preprocess, collect_rows_eq.
  assert (dex_transactions wallet_data = []) as ->; [|reflexivity].
  unfold dex_transactions.
  induction (Input.data wallet_data) as [|g gs IH]; [reflexivity|].
  cbn [flat_map]. rewrite decide_False by (apply Hno; left).
  apply IH. intros g' Hg'. apply Hno. now right.
Qed.

Lemma unparsable_timestamps_no_rows wallet_data :
  (forall tx, tx ∈ dex_transactions wallet_data ->
     to_datetime (Input.timestamp tx) = None) ->
  rows (_preprocess_dex_transactions wallet_data) = [].
Proof.
  intros Hbad. rewrite rows_preprocess, collect_rows_eq.
  induction (dex_transactions wallet_data) as [|tx txs IH]; [reflexivity|].
  cbn [map omap list_omap]. unfold dropna_datetime at 1.
  rewrite make_row_timestamp, (Hbad tx) by left.
  apply IH. intros tx' Htx'. apply Hbad. now right.
Qed.

(** No transaction is retained exactly when the frame has no row. *)
Lemma no_retained_rows wallet_data :
  retained_count wallet_data = 0%Z ->
  rows (_preprocess_dex_transactions wallet_data) = [].
Proof.
  rewrite <- retained_count_eq. unfold df_len.
  destruct (rows _); [reflexivity | cbn [length]; lia].
Qed.

(** The two ways of retaining nothing: no group is tagged "dexes", or no
    timestamp of such a group parses. *)
Lemma retained_count_zero wallet_data :
  (forall g, g ∈ Input.data wallet_data -> Input.protocolType g <> Some "dexes")
  \/ (forall tx, tx ∈ dex_transactions wallet_data ->
        to_datetime (Input.timestamp tx) = None) ->
  retained_count wallet_data = 0%Z.
Proof.
  intros Hcase. rewrite <- retained_count_eq. unfold df_len.
  destruct Hcase as [Hno | Hbad].
  - now rewrite no_dex_group_no_rows.
  - now rewrite unparsable_timestamps_no_rows.
Qed.

Lemma process_wallet_empty now wallet_data :
  rows (_preprocess_dex_transactions wallet_data) = [] ->
  process_wallet now wallet_data = Raise (ValueError no_transactions_message).
Proof.
  intros Hrows. apply df_empty_preprocess in Hrows.
  unfold process_wallet. now rewrite Hrows.
Qed.

(** ** Rows without an amount *)

(** C5, on the code.  On a batch whose only transaction has an action other
    than swap, deposit and withdraw, normalization retains one row, built
    without the [amount_usd] key; the frame has no [amount_usd] column, and
    the liquidity calculator, and with it the scoring engine, raises
    [KeyError] instead of returning zero-valued features. *)
Lemma unknown_action_raises :
  let df := _preprocess_dex_transactions
              (dict_of sample_address unknown_action_data) in
  df_len df = 1%Z
  /\ _calculate_lp_features sample_now df = Raise (KeyError "amount_usd")
  /\ process_wallet sample_now (dict_of sample_address unknown_action_data)
     = Raise (KeyError "amount_usd").
Proof. cbv zeta. repeat split; reflexivity. Qed.

(** The liquidity calculator succeeds on every frame some row of which was
    built for a swap, a deposit or a withdraw, and then an empty deposit
    (withdraw) subsequence gives a zero total and a zero count; without
    deposits the ratio and the holding time are zero too. *)
Lemma lp_features_with_amounts now df :
  "amount_usd" ∈ columns df ->
  exists lp,
    _calculate_lp_features now df = Ok lp
    /\ (rows (where_action df "deposit") = [] ->
        lp !! "total_deposit_usd" = Some (VNpFloat 0)
        /\ lp !! "num_deposits" = Some (VInt 0)
        /\ lp !! "withdraw_ratio" = Some (VFloat 0)
        /\ lp !! "avg_hold_time_days" = Some (VFloat 0))
    /\ (rows (where_action df "withdraw") = [] ->
        lp !! "total_withdraw_usd" = Some (VNpFloat 0)
        /\ lp !! "num_withdraws" = Some (VInt 0)).
Proof.
  intros Hcol. unfold _calculate_lp_features, column.
  rewrite !columns_where_action, !decide_True by exact Hcol.
  cbn [rbind]. eexists. split; [reflexivity|]. split.
  - intros Hnone. unfold df_len, _calculate_holding_time, df_empty.
    rewrite Hnone. repeat split; reflexivity.
  - intros Hnone. unfold df_len. rewrite Hnone. repeat split; reflexivity.
Qed.

(** ** Determinism *)

Lemma matched_holding_time_ignores_clock now now' withdraws d :
  (exists w, w ∈ rows withdraws /\ (timestamp d < timestamp w)%Z) ->
  holding_time_seconds now withdraws d = holding_time_seconds now' withdraws d.
Proof.
  intros (w & Hw & Hlt). unfold holding_time_seconds.
  destruct (timestamp <$> filter _ _) as [|t ts] eqn:E; [|reflexivity].
  assert (Hin : timestamp w ∈ timestamp <$>
            filter (fun r => (timestamp d < timestamp r)%Z) (rows withdraws)).
  { apply future_withdraws_spec. split; [|exact Hlt].
    now apply list_elem_of_fmap_2. }
  rewrite E in Hin. now apply elem_of_nil in Hin.
Qed.

Lemma holding_time_ignores_clock now now' df :
  every_deposit_matched df ->
  _calculate_holding_time now (where_action df "deposit")
    (where_action df "withdraw")
  = _calculate_holding_time now' (where_action df "deposit")
      (where_action df "withdraw").
Proof.
  intros Hmatched. unfold _calculate_holding_time.
  destruct (df_empty _); [reflexivity|].
  assert (Heq :
    map (fun deposit =>
           (holding_time_seconds now (where_action df "withdraw") deposit
            / 86400)%Q) (rows (where_action df "deposit"))
    = map (fun deposit =>
           (holding_time_seconds now' (where_action df "withdraw") deposit
            / 86400)%Q) (rows (where_action df "deposit"))).
  { apply map_ext_in. intros d Hd. apply list_elem_of_In in Hd.
    cbn [rows where_action] in Hd. apply list_elem_of_filter in Hd as [Hact Hd].
    destruct (Hmatched d Hd Hact) as (w & Hw & Hwact & Hlt).
    rewrite (matched_holding_time_ignores_clock now now'); [reflexivity|].
    exists w. split; [|exact Hlt]. cbn [rows where_action].
    now apply list_elem_of_filter. }
  now rewrite Heq.
Qed.

(** C9.  When every retained deposit of a batch has a retained withdraw with
    a strictly later timestamp, two runs of the scoring engine on the batch,
    at whatever times, return the same result: the same score and the same
    features. *)
Theorem matched_batch_is_deterministic now now' wallet_data :
  every_deposit_matched (_preprocess_dex_transactions wallet_data) ->
  process_wallet now wallet_data = process_wallet now' wallet_data.
Proof.
  intros Hmatched. unfold process_wallet.
  destruct (df_empty _); [reflexivity|].
  assert (_calculate_lp_features now (_preprocess_dex_transactions wallet_data)
          = _calculate_lp_features now' (_preprocess_dex_transactions wallet_data))
    as ->; [|reflexivity].
  unfold _calculate_lp_features.
  now rewrite (holding_time_ignores_clock now now').
Qed.

Lemma matched_batch_is_deterministic_witness :
  process_wallet sample_now sample_wallet_message
  = process_wallet (sample_now + 86400) sample_wallet_message.
Proof.
  apply (matched_batch_is_deterministic
           sample_now (sample_now + 86400) sample_wallet_message).
  intros d Hd Hact. apply list_elem_of_In in Hd. cbn in Hd.
  destruct Hd as [<- | [<- | [<- | []]]]; try discriminate Hact.
  eexists. split; [apply list_elem_of_In; cbn; right; right; left; reflexivity|].
  split; [reflexivity|]. cbn. lia.
Defined.

(** With an open position the result does depend on the clock. *)
Example open_position_depends_on_clock :
  process_wallet sample_now (dict_of sample_address future_deposit_data)
  <> process_wallet (sample_now + 86400)
       (dict_of sample_address future_deposit_data).
Proof. vm_compute. intros [= H]. Qed.

(** ** Holding time *)

Lemma earliest_after_unique d ws w w' :
  earliest_after d ws w -> earliest_after d ws w' -> w = w'.
Proof.
  intros (Hin & Hlt & Hmin) (Hin' & Hlt' & Hmin').
  pose proof (Hmin w' Hin' Hlt'). pose proof (Hmin' w Hin Hlt). lia.
Qed.

(** The loop body computes the duration the specification describes. *)
Lemma holding_time_seconds_spec now withdraws d :
  holding_duration now (timestamp <$> rows withdraws) (timestamp d)
    (holding_time_seconds now withdraws d).
Proof.
  unfold holding_duration, holding_time_seconds.
  destruct (timestamp <$> filter _ _) as [|t ts] eqn:E.
  - right. split; [|reflexivity]. intros w Hw.
    destruct (Z_le_gt_dec w (timestamp d)) as [Hle|Hgt]; [exact Hle|].
    assert (Hin : w ∈ timestamp <$>
              filter (fun r => (timestamp d < timestamp r)%Z) (rows withdraws))
      by (apply future_withdraws_spec; split; [exact Hw | lia]).
    rewrite E in Hin. now apply elem_of_nil in Hin.
  - left. exists (series_min t ts). split; [|reflexivity].
    pose proof (series_min_in t ts) as Hin. rewrite <- E in Hin.
    apply future_withdraws_spec in Hin as [Hin Hlt].
    split; [exact Hin|]. split; [exact Hlt|].
    intros w' Hw' Hlt'. apply series_min_le. rewrite <- E.
    now apply future_withdraws_spec.
Qed.

Lemma holding_duration_functional now ws d secs secs' :
  holding_duration now ws d secs -> holding_duration now ws d secs' ->
  secs = secs'.
Proof.
  intros [(w & Hw & ->) | [Hnone ->]] [(w' & Hw' & ->) | [Hnone' ->]].
  - now rewrite (earliest_after_unique _ _ _ _ Hw Hw').
  - destruct Hw as (Hin & Hlt & _). specialize (Hnone' w Hin). lia.
  - destruct Hw' as (Hin & Hlt & _). specialize (Hnone w' Hin). lia.
  - reflexivity.
Qed.

Lemma holding_time_seconds_matched now withdraws d w :
  earliest_after (timestamp d) (timestamp <$> rows withdraws) w ->
  holding_time_seconds now withdraws d = inject_Z (w - timestamp d).
Proof.
  intros Hw.
  apply (holding_duration_functional now (timestamp <$> rows withdraws)
           (timestamp d)).
  - apply holding_time_seconds_spec.
  - left. eauto.
Qed.

Lemma qsum_div (f : Row Z -> Q) (c : Q) (l : list (Row Z)) :
  (qsum (map (fun d => f d / c) l) == qsum (f <$> l) / c)%Q.
Proof.
  induction l as [|d l IH]; cbn.
  - unfold Qdiv. ring.
  - change (foldr Qplus 0 (map (fun d => f d / c) l))%Q
      with (qsum (map (fun d => f d / c)%Q l)).
    change (foldr Qplus 0 (f <$> l))%Q with (qsum (f <$> l)).
    rewrite IH. unfold Qdiv. ring.
Qed.

(** C3.  The holding time of each deposit is the smallest withdraw timestamp
    strictly greater than the deposit's timestamp, minus the deposit's
    timestamp, or the current time minus the deposit's timestamp when no
    withdraw is later; the average holding time is 0.0 when there are no
    deposits and otherwise the arithmetic mean of these durations over all
    deposits, divided by 86400; and a withdraw that is the earliest one after
    a deposit is also the match of every deposit made between the two. *)
Theorem holding_time_is_mean_of_durations now deposits withdraws :
  let ws := timestamp <$> rows withdraws in
  (forall d,
      holding_duration now ws (timestamp d)
        (holding_time_seconds now withdraws d))
  /\ (df_empty deposits = true ->
      _calculate_holding_time now deposits withdraws = VFloat 0)
  /\ (df_empty deposits = false ->
      (num (_calculate_holding_time now deposits withdraws)
       == qsum (holding_time_seconds now withdraws <$> rows deposits)
          / inject_Z (Z.of_nat (length (rows deposits))) / 86400)%Q)
  /\ (forall d1 d2 w,
         earliest_after (timestamp d1) ws w ->
         (timestamp d1 <= timestamp d2 < w)%Z ->
         holding_time_seconds now withdraws d1 = inject_Z (w - timestamp d1)
         /\ holding_time_seconds now withdraws d2
            = inject_Z (w - timestamp d2)).
Proof.
  cbv zeta. split; [intros d; apply holding_time_seconds_spec|].
  split; [intros Hempty; unfold _calculate_holding_time; now rewrite Hempty|].
  split.
  - intros Hempty. unfold _calculate_holding_time. rewrite Hempty.
    destruct (rows deposits) as [|d ds] eqn:E.
    { unfold df_empty in Hempty. now rewrite E in Hempty. }
    cbn [map num]. unfold np_mean.
    change (?x :: map ?g ds) with (map g (d :: ds)).
    rewrite qsum_div, length_map. unfold Qdiv. ring.
  - intros d1 d2 w Hw [Hle Hlt].
    split; [now apply holding_time_seconds_matched|].
    apply holding_time_seconds_matched.
    destruct Hw as (Hin & _ & Hmin). split; [exact Hin|].
    split; [exact Hlt|]. intros w' Hw' Hlt'. apply Hmin; [exact Hw'|lia].
Qed.

Lemma holding_time_is_mean_of_durations_witness :
  (num (_calculate_holding_time sample_now
          (where_action reuse_frame "deposit")
          (where_action reuse_frame "withdraw"))
   == (900 + 800) / 2 / 86400)%Q
  /\ (holding_time_seconds sample_now (where_action reuse_frame "withdraw")
        sample_deposit_row = inject_Z 900
      /\ holding_time_seconds sample_now (where_action reuse_frame "withdraw")
           later_deposit_row = inject_Z 800)
  /\ _calculate_holding_time sample_now
       (where_action reuse_frame "swap")
       (where_action reuse_frame "withdraw") = VFloat 0.
Proof.
  destruct (holding_time_is_mean_of_durations sample_now
              (where_action reuse_frame "deposit")
              (where_action reuse_frame "withdraw"))
    as (_ & _ & Hmean & Hreuse).
  split; [|split].
  - rewrite (Hmean eq_refl). reflexivity.
  - apply (Hreuse sample_deposit_row later_deposit_row 1703981800%Z).
    + split; [apply list_elem_of_In; cbn; left; reflexivity|].
      split; [reflexivity|].
      intros w' Hw' _. apply list_elem_of_In in Hw'. cbn in Hw'.
      destruct Hw' as [<- | []]. reflexivity.
    + cbn. lia.
  - destruct (holding_time_is_mean_of_durations sample_now
                (where_action reuse_frame "swap")
                (where_action reuse_frame "withdraw"))
      as (_ & Hnone & _).
    apply Hnone. reflexivity.
Defined.

(** Both deposits of [reuse_data] are among the retained deposits. *)
Example reuse_frame_deposits :
  timestamp <$> rows (where_action reuse_frame "deposit")
  = [1703980900; 1703981000]%Z.
Proof. reflexivity. Qed.

(** ** The stream processor *)

Section StreamProperties.
Context {Transport : Type} `{Environment Transport}.

Local Open Scope Z_scope.

Ltac run_cmd :=
  unfold on_exception, score_and_send, try_finally, try_except, time_time,
    _produce_message, incr_success, incr_failure, incr_processed,
    get_success_topic, get_failure_topic, raise, mbind, M_bind;
  cbn [success_topic failure_topic producer clock_reads is_running
       processed_count success_count failure_count fst snd].

(** The handler of lines 89-100: one record is handed to the producer, on
    the failure topic; the failure counter moves when the producer accepts
    it, and the producer's exception is raised otherwise. *)
Lemma on_exception_run (start_time : Q) (wallet_address : string) (e : exn)
    (st : State Transport) :
  exists ts ms,
    let sent :=
      produce_flush (producer st) (failure_topic st)
        (Output.Failure (failure_payload wallet_address e ts ms)) in
    on_exception start_time wallet_address e st
    = (match sent.2 with Some x => Raise x | None => Ok tt end,
       {| success_topic := success_topic st;
          failure_topic := failure_topic st;
          producer := sent.1;
          clock_reads := S (S (clock_reads st));
          is_running := is_running st;
          processed_count := processed_count st;
          success_count := success_count st;
          failure_count :=
            match sent.2 with
            | Some _ => failure_count st
            | None => failure_count st + 1
            end |}).
Proof.
  exists (Py.int (clock (S (clock_reads st)))),
    (Py.int ((clock (clock_reads st) - start_time) * 1000)).
  run_cmd. destruct (produce_flush _ _ _) as [tr [x|]]; reflexivity.
Qed.

(** Lines 70-87 leave the topics, the running flag, the processed counter
    and the failure counter alone; the success counter moves exactly when
    they complete; and an exception of the scoring engine is raised before
    anything is sent. *)
Lemma score_and_send_run (start_time : Q) (wallet_address : string)
    (wallet_data : Input.WalletTransactionInput) (st : State Transport) :
  let r := (score_and_send start_time wallet_address wallet_data st).1 in
  let st' := (score_and_send start_time wallet_address wallet_data st).2 in
  success_topic st' = success_topic st
  /\ failure_topic st' = failure_topic st
  /\ is_running st' = is_running st
  /\ processed_count st' = processed_count st
  /\ failure_count st' = failure_count st
  /\ success_count st'
     = (match r with
        | Ok _ => success_count st + 1
        | Raise _ => success_count st
        end)
  /\ (forall e,
         process_wallet (clock (clock_reads st)) wallet_data = Raise e ->
         r = Raise e /\ producer st' = producer st).
Proof.
  run_cmd.
  destruct (process_wallet _ _) as [[score features]|e0].
  - run_cmd. destruct (features !! "transaction_count"); run_cmd.
    + destruct (produce_flush _ _ _) as [tr [x|]]; cbn;
        repeat (split; [reflexivity|]); intros e' He'; discriminate He'.
    + cbn. repeat (split; [reflexivity|]). intros e' He'; discriminate He'.
  - cbn. repeat (split; [reflexivity|]). intros e' [= <-]. now split.
Qed.

(** [handle_message] after its first reading of the clock. *)
Lemma handle_message_unfold (m : Message) (st : State Transport) :
  handle_message m st
  = try_finally
      (match deserialize_and_validate m with
       | Raise e => on_exception (clock (clock_reads st)) "unknown" e
       | Ok (wallet_address, wallet_data) =>
           try_except
             (score_and_send (clock (clock_reads st)) wallet_address
                wallet_data)
             (on_exception (clock (clock_reads st)) wallet_address)
       end)
      incr_processed
      {| success_topic := success_topic st;
         failure_topic := failure_topic st;
         producer := producer st;
         clock_reads := S (clock_reads st);
         is_running := is_running st;
         processed_count := processed_count st;
         success_count := success_count st;
         failure_count := failure_count st |}.
Proof. reflexivity. Qed.

(** One received message, in full: the handler's verdict is the verdict of
    the iteration, after the processed counter has moved. *)
Lemma handle_message_failed (m : Message) (st : State Transport) (e : exn) :
  message_error (clock (S (clock_reads st))) m = Some e ->
  exists ts ms reads,
    let sent :=
      produce_flush (producer st) (failure_topic st)
        (Output.Failure (failure_payload (failure_address m) e ts ms)) in
    handle_message m st
    = (match sent.2 with Some x => Raise x | None => Ok tt end,
       {| success_topic := success_topic st;
          failure_topic := failure_topic st;
          producer := sent.1;
          clock_reads := reads;
          is_running := is_running st;
          processed_count := processed_count st + 1;
          success_count := success_count st;
          failure_count :=
            match sent.2 with
            | Some _ => failure_count st
            | None => failure_count st + 1
            end |}).
Proof.
  intros Herr. rewrite handle_message_unfold. unfold try_finally.
  set (st0 := {| success_topic := success_topic st;
                 failure_topic := failure_topic st;
                 producer := producer st;
                 clock_reads := S (clock_reads st);
                 is_running := is_running st;
                 processed_count := processed_count st;
                 success_count := success_count st;
                 failure_count := failure_count st |}).
  set (start_time := clock (clock_reads st)).
  destruct m as [e0 | raw e0 | wallet_address data]; cbn in Herr;
    cbn [deserialize_and_validate failure_address].
  - injection Herr as ->.
    destruct (on_exception_run start_time "unknown" e st0) as (ts & ms & ->).
    exists ts, ms, (S (S (S (clock_reads st)))). cbn.
    destruct (produce_flush _ _ _) as [tr [x|]]; reflexivity.
  - injection Herr as ->.
    destruct (on_exception_run start_time "unknown" e st0) as (ts & ms & ->).
    exists ts, ms, (S (S (S (clock_reads st)))). cbn.
    destruct (produce_flush _ _ _) as [tr [x|]]; reflexivity.
  - destruct (process_wallet _ _) as [|e0] eqn:Hrun; [discriminate|].
    injection Herr as ->. unfold try_except.
    destruct (score_and_send_run start_time wallet_address
                (dict_of wallet_address data) st0)
      as (Hs & Hf & Hr & Hp & Hfc & Hsc & Hraise).
    destruct (Hraise e Hrun) as [Hres Hprod].
    destruct (score_and_send _ _ _ st0) as [r st1]. cbn [fst snd] in *.
    subst r.
    destruct (on_exception_run start_time wallet_address e st1)
      as (ts & ms & ->).
    exists ts, ms, (S (S (clock_reads st1))). cbn.
    rewrite Hs, Hf, Hr, Hp, Hfc, Hsc, Hprod. cbn.
    destruct (produce_flush _ _ _) as [tr [x|]]; reflexivity.
Qed.

(** One received message, whatever it is: the topics and the running flag
    are untouched, the processed counter moves by one, and either the
    iteration completes with exactly one of the other two counters moved, or
    the exception the producer raised on a failure record leaves it. *)
Lemma handle_message_run (m : Message) (st : State Transport) :
  let r := (handle_message m st).1 in
  let st' := (handle_message m st).2 in
  success_topic st' = success_topic st
  /\ failure_topic st' = failure_topic st
  /\ is_running st' = is_running st
  /\ processed_count st' = processed_count st + 1
  /\ match r with
     | Ok _ =>
         (success_count st' = success_count st + 1
          /\ failure_count st' = failure_count st)
         \/ (success_count st' = success_count st
             /\ failure_count st' = failure_count st + 1)
     | Raise x =>
         success_count st' = success_count st
         /\ failure_count st' = failure_count st
         /\ exists tr payload,
              (produce_flush tr (failure_topic st) (Output.Failure payload)).2
              = Some x
     end.
Proof.
  rewrite handle_message_unfold. unfold try_finally.
  set (st0 := {| success_topic := success_topic st;
                 failure_topic := failure_topic st;
                 producer := producer st;
                 clock_reads := S (clock_reads st);
                 is_running := is_running st;
                 processed_count := processed_count st;
                 success_count := success_count st;
                 failure_count := failure_count st |}).
  set (start_time := clock (clock_reads st)).
  assert (Hhandler : forall wallet_address e (st1 : State Transport),
    success_topic st1 = success_topic st ->
    failure_topic st1 = failure_topic st ->
    is_running st1 = is_running st ->
    processed_count st1 = processed_count st ->
    success_count st1 = success_count st ->
    failure_count st1 = failure_count st ->
    let r := (let '(r, st') := on_exception start_time wallet_address e st1 in
              match incr_processed st' with
              | (Ok _, st'') => (r, st'')
              | (Raise e, st'') => (Raise e, st'')
              end).1 in
    let st' := (let '(r, st') := on_exception start_time wallet_address e st1 in
              match incr_processed st' with
              | (Ok _, st'') => (r, st'')
              | (Raise e, st'') => (Raise e, st'')
              end).2 in
    success_topic st' = success_topic st
    /\ failure_topic st' = failure_topic st
    /\ is_running st' = is_running st
    /\ processed_count st' = processed_count st + 1
    /\ match r with
       | Ok _ =>
           (success_count st' = success_count st + 1
            /\ failure_count st' = failure_count st)
           \/ (success_count st' = success_count st
               /\ failure_count st' = failure_count st + 1)
       | Raise x =>
           success_count st' = success_count st
           /\ failure_count st' = failure_count st
           /\ exists tr payload,
                (produce_flush tr (failure_topic st)
                   (Output.Failure payload)).2 = Some x
       end).
  { intros wallet_address e st1 Hs Hf Hr Hp Hsc Hfc.
    destruct (on_exception_run start_time wallet_address e st1)
      as (ts & ms & ->). cbn.
    split; [exact Hs|]. split; [exact Hf|]. split; [exact Hr|].
    split; [lia|].
    destruct (produce_flush _ _ _) as [tr [x|]] eqn:Hsent; cbn.
    - split; [exact Hsc|]. split; [exact Hfc|].
      eexists _, _. rewrite <- Hf, Hsent. reflexivity.
    - right. split; [exact Hsc | lia]. }
  destruct m as [e0 | raw e0 | wallet_address data];
    cbn [deserialize_and_validate].
  - now apply Hhandler.
  - now apply Hhandler.
  - unfold try_except.
    destruct (score_and_send_run start_time wallet_address
                (dict_of wallet_address data) st0)
      as (Hs & Hf & Hr & Hp & Hfc & Hsc & _).
    destruct (score_and_send _ _ _ st0) as [[[]|e] st1];
      cbn [fst snd success_topic failure_topic is_running processed_count
           success_count failure_count st0] in *.
    + cbn. split; [exact Hs|]. split; [exact Hf|]. split; [exact Hr|].
      split; [lia|]. left. split; [exact Hsc | exact Hfc].
    + now apply Hhandler.
Qed.

(** C10.  When deserialization or validation fails, the one record handed to
    the producer is a failure record on the failure topic whose wallet
    address is the literal "unknown", whatever address the message contains,
    and whose error is the text of the exception. *)
Theorem undecoded_failure_is_unknown (m : Message) (e : exn)
    (st : State Transport) :
  (m = Malformed e \/ exists raw_wallet_address, m = Rejected raw_wallet_address e) ->
  exists ts ms,
    producer (handle_message m st).2
    = (produce_flush (producer st) (failure_topic st)
         (Output.Failure
            {| Output.wallet_address := "unknown";
               Output.error := str_exn e;
               Output.timestamp := ts;
               Output.processing_time_ms := ms |})).1.
Proof.
  intros Hm.
  assert (Herr : message_error (clock (S (clock_reads st))) m = Some e
                 /\ failure_address m = "unknown")
    by (destruct Hm as [-> | [raw ->]]; now split).
  destruct Herr as [Herr Haddr].
  destruct (handle_message_failed m st e Herr) as (ts & ms & reads & ->).
  rewrite Haddr. now exists ts, ms.
Qed.

(** C2.  A validated batch of which normalization retains no transaction (it
    has no group tagged "dexes", or no timestamp of such a group parses)
    makes the scoring engine raise the "no valid transactions" error, at
    whatever time it runs; the one record the processor hands to the producer
    for it is a failure record, on the failure topic, carrying that message
    and the wallet address; and the success counter does not move. *)
Theorem empty_batch_fails (wallet_address : string)
    (data : list Input.ProtocolData) (st : State Transport) :
  retained_count (dict_of wallet_address data) = 0 ->
  (forall now,
      process_wallet now (dict_of wallet_address data)
      = Raise (ValueError no_transactions_message))
  /\ (exists ts ms,
        producer (handle_message (Validated wallet_address data) st).2
        = (produce_flush (producer st) (failure_topic st)
             (Output.Failure
                {| Output.wallet_address := wallet_address;
                   Output.error :=
                     "No valid DEX transactions found for this wallet.";
                   Output.timestamp := ts;
                   Output.processing_time_ms := ms |})).1)
  /\ success_count (handle_message (Validated wallet_address data) st).2
     = success_count st.
Proof.
  intros Hnone. apply no_retained_rows in Hnone as Hrows.
  assert (Hraise : forall now,
             process_wallet now (dict_of wallet_address data)
             = Raise (ValueError no_transactions_message))
    by (intros now; now apply process_wallet_empty).
  split; [exact Hraise|].
  destruct (handle_message_failed (Validated wallet_address data) st
              (ValueError no_transactions_message))
    as (ts & ms & reads & ->).
  { cbn. now rewrite Hraise. }
  split; [now exists ts, ms | reflexivity].
Qed.

(** ** The counters *)

Lemma handle_message_counters_le (m : Message) (st : State Transport) :
  counters_le st (handle_message m st).2.
Proof.
  destruct (handle_message_run m st) as (_ & _ & _ & Hp & Hres).
  unfold counters_le.
  destruct (handle_message m st).1; [destruct Hres as [[? ?]|[? ?]]|];
    intuition lia.
Qed.

Lemma loop_counters_le (events : list Event) (st : State Transport) :
  counters_le st (_processing_loop events st).2.
Proof.
  revert st. induction events as [|ev events IH]; intros st; cbn.
  { destruct (is_running st); cbn; unfold counters_le; lia. }
  destruct (is_running st); [|cbn; unfold counters_le; lia].
  destruct ev as [[|code|m]|].
  - apply IH.
  - destruct (decide _); [apply IH | cbn; unfold counters_le; lia].
  - pose proof (handle_message_counters_le m st) as Hle.
    destruct (handle_message m st) as [[[]|e] st']; cbn [snd] in *.
    + specialize (IH st'). unfold counters_le in *. lia.
    + exact Hle.
  - specialize (IH (stop st)). unfold counters_le in *. cbn in IH. exact IH.
Qed.

Lemma loop_counters_agree (events : list Event) (st : State Transport) :
  counters_agree st ->
  (forall e, (_processing_loop events st).1 <> Crashed e) ->
  counters_agree (_processing_loop events st).2.
Proof.
  revert st. induction events as [|ev events IH]; intros st Hagree; cbn.
  { now destruct (is_running st). }
  destruct (is_running st); [|easy].
  destruct ev as [[|code|m]|].
  - now apply IH.
  - destruct (decide _); [now apply IH | easy].
  - destruct (handle_message_run m st) as (_ & _ & _ & Hp & Hres).
    destruct (handle_message m st) as [[[]|e] st']; cbn [fst snd] in *.
    + apply IH. unfold counters_agree in *.
      destruct Hres as [[? ?]|[? ?]]; lia.
    + intros Hno. now destruct (Hno e).
  - now apply IH.
Qed.

(** C6.  The counters start in agreement.  Every message whose processing
    completes moves processed_count by one and exactly one of success_count
    and failure_count by one, so that processed_count = success_count +
    failure_count holds after every run of the loop that no exception has
    left; and no counter ever decreases, neither in one iteration nor over a
    run of the loop, however the run ends. *)
Theorem counters_invariant :
  (forall success failure (tr : Transport),
      counters_agree (init success failure tr))
  /\ (forall m (st st' : State Transport),
         handle_message m st = (Ok tt, st') ->
         processed_count st' = processed_count st + 1
         /\ ((success_count st' = success_count st + 1
              /\ failure_count st' = failure_count st)
             \/ (success_count st' = success_count st
                 /\ failure_count st' = failure_count st + 1)))
  /\ (forall events (st : State Transport),
         counters_agree st ->
         (forall e, (_processing_loop events st).1 <> Crashed e) ->
         counters_agree (_processing_loop events st).2)
  /\ (forall m (st : State Transport),
         counters_le st (handle_message m st).2)
  /\ (forall events (st : State Transport),
         counters_le st (_processing_loop events st).2).
Proof.
  split; [reflexivity|]. split.
  - intros m st st' Hrun.
    destruct (handle_message_run m st) as (_ & _ & _ & Hp & Hres).
    rewrite Hrun in Hp, Hres. cbn [fst snd] in *. now split.
  - split; [exact loop_counters_agree|].
    split; [exact handle_message_counters_le | exact loop_counters_le].
Qed.

(** ** Recovery *)

Lemma loop_failure_topic (events : list Event) (st : State Transport) :
  failure_topic (_processing_loop events st).2 = failure_topic st.
Proof.
  revert st. induction events as [|ev events IH]; intros st; cbn.
  { now destruct (is_running st). }
  destruct (is_running st); [|reflexivity].
  destruct ev as [[|code|m]|].
  - apply IH.
  - destruct (decide _); [apply IH | reflexivity].
  - destruct (handle_message_run m st) as (_ & Hf & _).
    destruct (handle_message m st) as [[[]|e] st']; cbn [fst snd] in *.
    + now rewrite IH.
    + exact Hf.
  - now rewrite IH.
Qed.

Lemma loop_crash_is_transport_fault (events : list Event)
    (st st' : State Transport) (e : exn) :
  _processing_loop events st = (Crashed e, st') ->
  exists tr payload,
    (produce_flush tr (failure_topic st) (Output.Failure payload)).2 = Some e.
Proof.
  revert st. induction events as [|ev events IH]; intros st; cbn.
  { now destruct (is_running st). }
  destruct (is_running st); [|discriminate].
  destruct ev as [[|code|m]|].
  - apply IH.
  - destruct (decide _); [apply IH | discriminate].
  - destruct (handle_message_run m st) as (_ & Hf & _ & _ & Hres).
    destruct (handle_message m st) as [[[]|x] st1]; cbn [fst snd] in *.
    + rewrite <- Hf. apply IH.
    + intros [= -> _]. now destruct Hres as (_ & _ & Hfault).
  - intros Hrun. apply IH in Hrun. exact Hrun.
Qed.

Lemma loop_keeps_polling (events : list Event) (st : State Transport) :
  is_running st = true ->
  (forall ev, ev ∈ events -> ~ fatal_poll ev /\ ev <> StopRequested) ->
  (forall tr payload,
      (produce_flush tr (failure_topic st) (Output.Failure payload)).2 = None) ->
  (_processing_loop events st).1 = Polling.
Proof.
  revert st. induction events as [|ev events IH]; intros st Hrun Hev Hsend; cbn.
  { now rewrite Hrun. }
  rewrite Hrun.
  assert (Hrest : forall ev', ev' ∈ events ->
                    ~ fatal_poll ev' /\ ev' <> StopRequested)
    by (intros ev' Hin; apply Hev; now right).
  destruct (Hev ev) as [Hfatal Hstop]; [left|].
  destruct ev as [[|code|m]|]; [| | |now destruct Hstop].
  - now apply IH.
  - destruct (decide _) as [|Hne]; [now apply IH|].
    destruct Hfatal. now exists code.
  - destruct (handle_message_run m st) as (_ & Hf & Hr & _ & Hres).
    destruct (handle_message m st) as [[[]|x] st1]; cbn [fst snd] in *.
    + apply IH; [congruence | exact Hrest | now rewrite Hf].
    + destruct Hres as (_ & _ & tr & payload & Hfault).
      now rewrite Hsend in Hfault.
Qed.

(** C7.  When deserialization, validation or scoring raises [e] on a
    message, the processor hands the producer one failure record, on the
    failure topic, carrying the text of [e]; if the producer accepts it, the
    iteration completes, the failure counter moves, and the loop goes on to
    the next event.  An exception leaves the loop only if the producer raised
    it on a failure record; and when the producer accepts every failure
    record, no poll reports a fatal error and nobody requests a stop, the loop
    is still polling after any sequence of messages. *)
Theorem per_message_errors_are_recovered :
  (forall m (st : State Transport) e,
      message_error (clock (S (clock_reads st))) m = Some e ->
      exists ts ms,
        let sent :=
          produce_flush (producer st) (failure_topic st)
            (Output.Failure
               {| Output.wallet_address := failure_address m;
                  Output.error := str_exn e;
                  Output.timestamp := ts;
                  Output.processing_time_ms := ms |}) in
        producer (handle_message m st).2 = sent.1
        /\ (sent.2 = None ->
            (handle_message m st).1 = Ok tt
            /\ failure_count (handle_message m st).2 = failure_count st + 1
            /\ forall events,
                 is_running st = true ->
                 _processing_loop (Poll (PollMessage m) :: events) st
                 = _processing_loop events (handle_message m st).2))
  /\ (forall events (st st' : State Transport) e,
         _processing_loop events st = (Crashed e, st') ->
         exists tr payload,
           (produce_flush tr (failure_topic st) (Output.Failure payload)).2
           = Some e)
  /\ (forall events (st : State Transport),
         is_running st = true ->
         (forall ev, ev ∈ events -> ~ fatal_poll ev /\ ev <> StopRequested) ->
         (forall tr payload,
             (produce_flush tr (failure_topic st) (Output.Failure payload)).2
             = None) ->
         (_processing_loop events st).1 = Polling).
Proof.
  split; [|split; [exact loop_crash_is_transport_fault
                  | exact loop_keeps_polling]].
  intros m st e Herr.
  destruct (handle_message_failed m st e Herr) as (ts & ms & reads & Hrun).
  exists ts, ms. cbv zeta in *. unfold failure_payload in Hrun.
  split; [now rewrite Hrun|].
  intros Haccepted. rewrite Haccepted in Hrun.
  split; [now rewrite Hrun|]. split; [now rewrite Hrun|].
  intros events Hrunning. cbn [_processing_loop]. rewrite Hrunning.
  now rewrite Hrun.
Qed.

End StreamProperties.

(** ** The stream processor on the fixtures *)

Lemma undecoded_failure_is_unknown_witness :
  exists ts ms,
    producer
      (@handle_message _ recording
         (Rejected (Some sample_address) (Exception "field required"))
         started).2
    = [("wallet-scores-failure",
        Output.Failure
          {| Output.wallet_address := "unknown";
             Output.error := "field required";
             Output.timestamp := ts;
             Output.processing_time_ms := ms |})].
Proof.
  destruct (@undecoded_failure_is_unknown _ recording
              (Rejected (Some sample_address) (Exception "field required"))
              (Exception "field required") started
              (or_intror (ex_intro _ (Some sample_address) eq_refl)))
    as (ts & ms & Hsent).
  exists ts, ms. exact Hsent.
Defined.

Lemma empty_batch_fails_witness :
  (forall now,
      process_wallet now (dict_of sample_address lending_data)
      = Raise (ValueError no_transactions_message))
  /\ (exists ts ms,
        producer
          (@handle_message _ recording
             (Validated sample_address lending_data) started).2
        = [("wallet-scores-failure",
            Output.Failure
              {| Output.wallet_address := sample_address;
                 Output.error :=
                   "No valid DEX transactions found for this wallet.";
                 Output.timestamp := ts;
                 Output.processing_time_ms := ms |})])
  /\ success_count
       (@handle_message _ recording
          (Validated sample_address lending_data) started).2
     = 0%Z.
Proof.
  exact (@empty_batch_fails _ recording sample_address lending_data started
           eq_refl).
Defined.

(** A batch all of whose timestamps are out of range is empty too. *)
Example out_of_range_timestamps_fail :
  process_wallet sample_now
    (dict_of sample_address
       [dexes [transaction "swap" 99999999999999
                 (token 1 "USDC") (token 1 "WETH") None None]])
  = Raise (ValueError no_transactions_message).
Proof. reflexivity. Qed.

Lemma counters_invariant_witness :
  counters_agree
    (@_processing_loop _ recording
       [Poll (PollMessage (Validated sample_address sample_data));
        Poll PollNone;
        Poll (PollMessage (Malformed (Exception "Expecting value")))]
       started).2
  /\ get_stats
       (@_processing_loop _ recording
          [Poll (PollMessage (Validated sample_address sample_data));
           Poll PollNone;
           Poll (PollMessage (Malformed (Exception "Expecting value")))]
          started).2
     = (2, 1, 1, true)%Z
  /\ processed_count
       (@handle_message _ recording
          (Validated sample_address sample_data) started).2
     = (processed_count started + 1)%Z.
Proof.
  destruct (@counters_invariant _ recording) as (_ & Hstep & Hloop & _).
  split; [|split; [vm_compute; reflexivity|]].
  - apply Hloop; [reflexivity|].
    intros e. vm_compute. discriminate.
  - apply (Hstep (Validated sample_address sample_data) started
             (@handle_message _ recording
                (Validated sample_address sample_data) started).2).
    vm_compute. reflexivity.
Defined.

Lemma per_message_errors_are_recovered_witness :
  ((@handle_message _ recording
      (Malformed (Exception "Expecting value")) started).1 = Ok tt
   /\ failure_count
        (@handle_message _ recording
           (Malformed (Exception "Expecting value")) started).2 = 1%Z)
  /\ (@_processing_loop _ recording
        [Poll (PollMessage (Malformed (Exception "Expecting value")));
         Poll (PollError _PARTITION_EOF);
         Poll (PollMessage (Validated sample_address unknown_action_data));
         Poll (PollMessage (Validated sample_address sample_data))]
        started).1 = Polling
  /\ (exists tr payload,
        (@produce_flush _ refusing tr (failure_topic started)
           (Output.Failure payload)).2
        = Some (Exception "Local: Queue full")).
Proof.
  split; [|split].
  - destruct (@per_message_errors_are_recovered _ recording) as (Hone & _ & _).
    destruct (Hone (Malformed (Exception "Expecting value")) started
                (Exception "Expecting value") eq_refl)
      as (ts & ms & _ & Haccepted).
    destruct (Haccepted eq_refl) as (Hok & Hcount & _).
    split; [exact Hok | exact Hcount].
  - destruct (@per_message_errors_are_recovered _ recording) as (_ & _ & Hall).
    apply Hall; [reflexivity | | reflexivity].
    intros ev Hev. apply list_elem_of_In in Hev. cbn in Hev.
    destruct Hev as [<- | [<- | [<- | [<- | []]]]];
      (split; [intros (code & Hcode & Hne) | discriminate]);
      try discriminate Hcode.
    injection Hcode as <-. now destruct Hne.
  - destruct (@per_message_errors_are_recovered _ refusing) as (_ & Hcrash & _).
    apply (Hcrash
             [Poll (PollMessage (Malformed (Exception "Expecting value")))]
             started
             (@_processing_loop _ refusing
                [Poll (PollMessage (Malformed (Exception "Expecting value")))]
                started).2).
    vm_compute. reflexivity.
Defined.

(** The scoring engine's own error on a batch of unknown actions is
    recovered like any other. *)
Example unknown_action_failure_record :
  (@_processing_loop _ recording
     [Poll (PollMessage (Validated sample_address unknown_action_data))]
     started).1 = Polling
  /\ exists ts ms,
       producer
         (@_processing_loop _ recording
            [Poll (PollMessage (Validated sample_address unknown_action_data))]
            started).2
       = [("wallet-scores-failure",
           Output.Failure
             {| Output.wallet_address := sample_address;
                Output.error := "'amount_usd'";
                Output.timestamp := ts;
                Output.processing_time_ms := ms |})].
Proof. split; [reflexivity|]. eexists _, _. vm_compute. reflexivity. Qed.

(** When the producer refuses the failure record, its exception leaves the
    loop after the processed counter has moved: the worker is dead and the
    counters no longer agree. *)
Example refused_failure_record_crashes :
  (@_processing_loop _ refusing
     [Poll (PollMessage (Malformed (Exception "Expecting value")))]
     started).1 = Crashed (Exception "Local: Queue full")
  /\ get_stats
       (@_processing_loop _ refusing
          [Poll (PollMessage (Malformed (Exception "Expecting value")))]
          started).2
     = (1, 0, 0, true)%Z.
Proof. split; reflexivity. Qed.

(** A fatal poll error leaves the loop; the end-of-partition signal does
    not. *)
Example fatal_poll_closes :
  (@_processing_loop _ recording
     [Poll (PollError _PARTITION_EOF); Poll (PollError (-195))] started).1
  = Closed.
Proof. reflexivity. Qed.

(** The sample message scores 3681/32 (115.03125) and is reported on the
    success topic with its three transactions; the count is moved out of the
    feature map. *)
Example sample_message_success :
  match
    producer
      (@_processing_loop _ recording
         [Poll (PollMessage (Validated sample_address sample_data))]
         started).2
  with
  | [(topic, Output.Success p)] =>
      topic = "wallet-scores-success"
      /\ Output.s_wallet_address p = sample_address
      /\ (Output.zscore p == 3681 # 32)%Q
      /\ Output.transaction_count <$> Output.categories p = [VInt 3]
      /\ (fun c => Output.features c !! "transaction_count")
           <$> Output.categories p = [None]
  | _ => False
  end.
Proof. vm_compute. repeat split; reflexivity. Qed.

(** * Further properties of the scoring engine *)

(** ** Which batches score *)









(** ** The returned features *)

(** Every entry of a liquidity feature map. *)
Lemma lp_features_entries now df lp :
  _calculate_lp_features now df = Ok lp ->
  let deposits := where_action df "deposit" in
  let withdraws := where_action df "withdraw" in
  let total_deposit_usd := series_sum (amount_usd <$> rows deposits) in
  let total_withdraw_usd := series_sum (amount_usd <$> rows withdraws) in
  lp !! "total_deposit_usd" = Some (VNpFloat total_deposit_usd)
  /\ lp !! "total_withdraw_usd" = Some (VNpFloat total_withdraw_usd)
  /\ lp !! "num_deposits" = Some (VInt (df_len deposits))
  /\ lp !! "num_withdraws" = Some (VInt (df_len withdraws))
  /\ lp !! "withdraw_ratio"
     = Some (if Qle_bool total_deposit_usd 0 then VFloat 0
             else VNpFloat (total_withdraw_usd / total_deposit_usd))
  /\ lp !! "avg_hold_time_days"
     = Some (_calculate_holding_time now deposits withdraws)
  /\ lp !! "account_age_days"
     = Some (if df_empty df then VFloat 0
             else match timestamp <$> rows df with
                  | t :: ts =>
                      VNpFloat
                        (inject_Z (series_max t ts - series_min t ts) / 86400)
                  | [] => VFloat 0
                  end)
  /\ lp !! "unique_pools" = Some (VInt (nunique (pool_id <$> rows df)))
  /\ dom lp
     = list_to_set
         ["total_deposit_usd"; "total_withdraw_usd"; "num_deposits";
          "num_withdraws"; "withdraw_ratio"; "avg_hold_time_days";
          "account_age_days"; "unique_pools"].
Proof.
  unfold _calculate_lp_features, column. cbn [columns where_action].
  destruct (decide _); [|discriminate]. cbn [rbind rows].
  intros [= <-]. cbv zeta. repeat split; reflexivity.
Qed.

(** Every entry of a swap feature map. *)
Lemma swap_features_entries df swap :
  _calculate_swap_features df = Ok swap ->
  let swaps := where_action df "swap" in
  let total_swap_volume := series_sum (amount_usd <$> rows swaps) in
  let unique_tokens :=
    dropna_set (token_in_symbol <$> rows swaps)
    ∪ dropna_set (token_out_symbol <$> rows swaps) in
  swap !! "total_swap_volume"
  = Some (if df_empty swaps then VFloat 0 else VNpFloat total_swap_volume)
  /\ swap !! "num_swaps"
     = Some (VInt (if df_empty swaps then 0 else df_len swaps))
  /\ swap !! "unique_pools_swapped"
     = Some (VInt (if df_empty swaps then 0
                   else nunique (pool_id <$> rows swaps)))
  /\ swap !! "avg_swap_size"
     = Some (if df_empty swaps then VFloat 0
             else if decide (0 < df_len swaps)%Z
                  then VNpFloat (total_swap_volume / inject_Z (df_len swaps))
                  else VFloat 0)
  /\ swap !! "token_diversity"
     = Some (VInt (if df_empty swaps then 0
                   else Z.of_nat (size unique_tokens)))
  /\ dom swap
     = list_to_set
         ["total_swap_volume"; "num_swaps"; "unique_pools_swapped";
          "avg_swap_size"; "token_diversity"].
Proof.
  unfold _calculate_swap_features, column. cbn [columns where_action].
  destruct (df_empty _).
  - intros [= <-]. cbv zeta. repeat split; reflexivity.
  - destruct (decide _); [|discriminate]. cbn [rbind].
    destruct (decide _); [|discriminate]. cbn [rbind].
    destruct (decide _); [|discriminate]. cbn [rbind].
    intros [= <-]. cbv zeta. repeat split; reflexivity.
Qed.

(** An entry of the returned features is the sanitized entry of the feature
    map that has the key: the swap map's keys first. *)
Lemma output_lookup_lp (lp swap : gmap string value) (count : value) key v :
  key <> "transaction_count" ->
  key ∉ dom swap ->
  lp !! key = Some v ->
  (<["transaction_count" := count]> (_sanitize_features (swap ∪ lp))) !! key
  = Some (sanitize_value v).
Proof.
  intros Hne Hswap Hlp. unfold _sanitize_features.
  rewrite lookup_insert_ne by congruence.
  rewrite lookup_fmap, lookup_union_r, Hlp; [reflexivity|].
  now apply not_elem_of_dom.
Qed.

Lemma output_lookup_swap (lp swap : gmap string value) (count : value) key v :
  key <> "transaction_count" ->
  swap !! key = Some v ->
  (<["transaction_count" := count]> (_sanitize_features (swap ∪ lp))) !! key
  = Some (sanitize_value v).
Proof.
  intros Hne Hswap. unfold _sanitize_features.
  rewrite lookup_insert_ne by congruence.
  now rewrite lookup_fmap, (lookup_union_Some_l swap lp key v Hswap).
Qed.

(** X6.  The features the engine returns have exactly the fourteen keys of
    [CategoryFeatures], and every value is a plain Python number: no NumPy
    scalar is left. *)
Theorem returned_features_shape now wallet_data s f :
  process_wallet now wallet_data = Ok (s, f) ->
  dom f = list_to_set CategoryFeatures_fields
  /\ forall key v, f !! key = Some v -> python_number v.
Proof.
  intros Hrun.
  apply process_wallet_ok in Hrun as (lp & swap & _ & Hlp & Hswap & _ & ->).
  apply lp_features_entries in Hlp as (_ & _ & _ & _ & _ & _ & _ & _ & Hdl).
  apply swap_features_entries in Hswap as (_ & _ & _ & _ & _ & Hds).
  split.
  - unfold _sanitize_features.
    rewrite dom_insert_L, dom_fmap_L, dom_union_L, Hdl, Hds.
    apply set_eq. intros key. unfold CategoryFeatures_fields.
    rewrite !elem_of_union, !elem_of_list_to_set, elem_of_singleton,
      !elem_of_cons, !elem_of_nil.
    intuition.
  - intros key v. unfold _sanitize_features.
    destruct (decide (key = "transaction_count")) as [->|Hne].
    + rewrite lookup_insert_eq. now intros [= <-].
    + rewrite lookup_insert_ne by congruence. rewrite lookup_fmap.
      destruct ((swap ∪ lp) !! key) as [v0|]; [|discriminate].
      intros [= <-]. now destruct v0.
Qed.

Lemma returned_features_shape_witness :
  exists s f,
    process_wallet sample_now sample_wallet_message = Ok (s, f)
    /\ dom f = list_to_set CategoryFeatures_fields.
Proof.
  destruct (process_wallet sample_now sample_wallet_message)
    as [[s f]|e] eqn:Hrun; [|discriminate Hrun].
  exists s, f. split; [reflexivity|].
  apply (returned_features_shape sample_now sample_wallet_message s f Hrun).
Defined.

Lemma size_list_to_set_le (l : list string) :
  size (list_to_set l : gset string) <= length l.
Proof.
  induction l as [|x l IH]; cbn [list_to_set length foldr].
  - now rewrite size_empty.
  - rewrite size_union_alt, size_singleton.
    assert (size ((list_to_set l : gset string) ∖ {[x]})
            <= size (list_to_set l : gset string))
      by (apply subseteq_size, subseteq_difference_l; reflexivity).
    lia.
Qed.

Lemma length_omap_le {A B} (g : A -> option B) (l : list A) :
  length (omap g l) <= length l.
Proof.
  induction l as [|x l IH]; cbn; [lia|]. destruct (g x); cbn; lia.
Qed.

Lemma nunique_bounds (cells : list (option string)) :
  (0 <= nunique cells <= Z.of_nat (length cells))%Z.
Proof.
  unfold nunique.
  pose proof (size_list_to_set_le (omap id cells)).
  pose proof (length_omap_le id cells). lia.
Qed.

Lemma dropna_set_size (cells : list (option string)) :
  size (dropna_set cells) <= length cells.
Proof.
  unfold dropna_set.
  pose proof (size_list_to_set_le (omap id cells)).
  pose proof (length_omap_le id cells). lia.
Qed.

(** The rows of three different actions are at most all the rows, and all
    of them when no row has another action. *)
Lemma action_partition (l : list (Row Z)) :
  let count a := length (filter (fun r => action r = Some a) l) in
  count "deposit" + count "withdraw" + count "swap" <= length l
  /\ ((forall r, r ∈ l ->
         action r ∈ [Some "swap"; Some "deposit"; Some "withdraw"]) ->
      count "deposit" + count "withdraw" + count "swap" = length l).
Proof.
  cbv zeta. induction l as [|r l [IHle IHeq]]; [cbn; split; [lia|reflexivity]|].
  rewrite !filter_cons.
  assert (Hrest : (forall r0, r0 ∈ r :: l ->
             action r0 ∈ [Some "swap"; Some "deposit"; Some "withdraw"]) ->
           forall r0, r0 ∈ l ->
             action r0 ∈ [Some "swap"; Some "deposit"; Some "withdraw"])
    by (intros Hall r0 Hr0; apply Hall; now right).
  destruct (decide (action r = Some "deposit")) as [Hd|Hd];
    [rewrite Hd, decide_False, decide_False by discriminate|
     destruct (decide (action r = Some "withdraw")) as [Hw|Hw];
     [rewrite Hw, decide_False by discriminate|
      destruct (decide (action r = Some "swap")) as [Hs|Hs]]];
    cbn [length]; (split; [lia|]); intros Hall;
    try (specialize (IHeq (Hrest Hall)); lia).
  specialize (Hall r (list_elem_of_here r l)).
  rewrite !elem_of_cons, elem_of_nil in Hall.
  destruct Hall as [? | [? | [? | []]]]; contradiction.
Qed.

(** In a frame that is not empty, a selection by action is empty exactly
    when it has no row. *)
Lemma selection_len (df : DataFrame) (a : string) :
  df_empty df = false ->
  (if df_empty (where_action df a) then 0%Z else df_len (where_action df a))
  = df_len (where_action df a).
Proof.
  unfold df_empty, df_len. cbn [columns where_action].
  destruct (rows df); [discriminate|]. destruct (columns df); [discriminate|].
  intros _. now destruct (rows (where_action _ a)).
Qed.

Lemma retained_actions wallet_data :
  (forall tx, tx ∈ dex_transactions wallet_data -> known_action tx) ->
  forall r, r ∈ rows (_preprocess_dex_transactions wallet_data) ->
    action r ∈ [Some "swap"; Some "deposit"; Some "withdraw"].
Proof.
  intros Hknown r Hr. apply retained_row_origin in Hr as (tx & Htx & Hr).
  apply dropna_datetime_Some in Hr as (_ & _ & -> & _).
  rewrite make_row_action. now apply Hknown.
Qed.

(** X5.  In the returned features the three activity counts and the pool
    count are non-negative integers; deposits, withdraws and swaps together
    are at most [transaction_count], and exactly [transaction_count] when
    every transaction of the groups tagged "dexes" is a swap, a deposit or a
    withdraw; the number of distinct pools is at most [transaction_count]. *)
Theorem activity_counts now wallet_data s f :
  process_wallet now wallet_data = Ok (s, f) ->
  exists d w n p total : Z,
    f !! "num_deposits" = Some (VInt d)
    /\ f !! "num_withdraws" = Some (VInt w)
    /\ f !! "num_swaps" = Some (VInt n)
    /\ f !! "unique_pools" = Some (VInt p)
    /\ f !! "transaction_count" = Some (VInt total)
    /\ (0 <= d /\ 0 <= w /\ 0 <= n /\ 0 <= p)%Z
    /\ (d + w + n <= total)%Z
    /\ (p <= total)%Z
    /\ ((forall tx, tx ∈ dex_transactions wallet_data -> known_action tx) ->
        (d + w + n = total)%Z).
Proof.
  intros Hrun.
  apply process_wallet_ok in Hrun
    as (lp & swap & Hfull & Hlp & Hswap & _ & ->).
  apply lp_features_entries in Hlp
    as (_ & _ & Hd & Hw & _ & _ & _ & Hp & Hdl).
  apply swap_features_entries in Hswap as (_ & Hn & _ & _ & _ & Hds).
  rewrite selection_len in Hn by exact Hfull.
  assert (Hnotin : forall key,
    key ∈ ["num_deposits"; "num_withdraws"; "unique_pools"] -> key ∉ dom swap).
  { intros key Hkey. rewrite Hds, elem_of_list_to_set.
    rewrite !elem_of_cons, elem_of_nil in *.
    intros [?|[?|[?|[?|[?|[]]]]]]; subst key;
      destruct Hkey as [?|[?|[?|[]]]]; discriminate. }
  set (df := _preprocess_dex_transactions wallet_data) in *.
  exists (df_len (where_action df "deposit")),
    (df_len (where_action df "withdraw")), (df_len (where_action df "swap")),
    (nunique (pool_id <$> rows df)), (df_len df).
  split; [exact (output_lookup_lp lp swap _ "num_deposits" _ ltac:(discriminate)
                   (Hnotin "num_deposits" ltac:(rewrite !elem_of_cons; auto)) Hd)|].
  split; [exact (output_lookup_lp lp swap _ "num_withdraws" _ ltac:(discriminate)
                   (Hnotin "num_withdraws" ltac:(rewrite !elem_of_cons; auto)) Hw)|].
  split; [exact (output_lookup_swap lp swap _ "num_swaps" _ ltac:(discriminate) Hn)|].
  split; [exact (output_lookup_lp lp swap _ "unique_pools" _ ltac:(discriminate)
                   (Hnotin "unique_pools" ltac:(rewrite !elem_of_cons; auto)) Hp)|].
  split; [apply lookup_insert_eq|].
  destruct (action_partition (rows df)) as [Hle Heq].
  pose proof (nunique_bounds (pool_id <$> rows df)) as Hpools.
  rewrite length_fmap in Hpools.
  unfold df_len. cbn [rows where_action].
  split; [lia|]. split; [lia|]. split; [lia|].
  intros Hknown. specialize (Heq (retained_actions wallet_data Hknown)). lia.
Qed.

Lemma activity_counts_witness :
  exists s f,
    process_wallet sample_now sample_wallet_message = Ok (s, f)
    /\ exists d w n : Z,
         f !! "num_deposits" = Some (VInt d)
         /\ f !! "num_withdraws" = Some (VInt w)
         /\ f !! "num_swaps" = Some (VInt n)
         /\ f !! "transaction_count" = Some (VInt (d + w + n)).
Proof.
  destruct (process_wallet sample_now sample_wallet_message)
    as [[s f]|e] eqn:Hrun; [|discriminate Hrun].
  exists s, f. split; [reflexivity|].
  destruct (activity_counts sample_now sample_wallet_message s f Hrun)
    as (d & w & n & p & total & Hd & Hw & Hn & _ & Ht & _ & _ & _ & Heq).
  exists d, w, n. split; [exact Hd|]. split; [exact Hw|]. split; [exact Hn|].
  rewrite Heq; [exact Ht|].
  intros tx Htx. apply list_elem_of_In in Htx. cbn in Htx.
  unfold known_action.
  destruct Htx as [<- | [<- | [<- | []]]]; cbn; rewrite !elem_of_cons; auto.
Defined.

(** X3.  In the returned features the number of distinct pools swapped is
    between 0 and the number of swaps, the token diversity is between 0 and
    twice the number of swaps, and the average swap size times the number of
    swaps is the total swap volume; so without swaps all of them are zero. *)
Theorem swap_feature_bounds now wallet_data s f :
  process_wallet now wallet_data = Ok (s, f) ->
  exists n k p : Z,
    f !! "num_swaps" = Some (VInt n)
    /\ f !! "token_diversity" = Some (VInt k)
    /\ f !! "unique_pools_swapped" = Some (VInt p)
    /\ (0 <= p <= n)%Z
    /\ (0 <= k <= 2 * n)%Z
    /\ (get_num f "avg_swap_size" 0 * inject_Z n
        == get_num f "total_swap_volume" 0)%Q.
Proof.
  intros Hrun.
  apply process_wallet_ok in Hrun
    as (lp & swap & Hfull & _ & Hswap & _ & ->).
  apply swap_features_entries in Hswap as (Hv & Hn & Hp & Ha & Hk & _).
  set (df := _preprocess_dex_transactions wallet_data) in *.
  set (swaps := where_action df "swap") in *.
  exists (if df_empty swaps then 0%Z else df_len swaps),
    (if df_empty swaps then 0%Z
     else Z.of_nat (size (dropna_set (token_in_symbol <$> rows swaps)
                          ∪ dropna_set (token_out_symbol <$> rows swaps)))),
    (if df_empty swaps then 0%Z else nunique (pool_id <$> rows swaps)).
  split; [exact (output_lookup_swap lp swap _ "num_swaps" _ ltac:(discriminate) Hn)|].
  split; [exact (output_lookup_swap lp swap _ "token_diversity" _ ltac:(discriminate) Hk)|].
  split; [exact (output_lookup_swap lp swap _ "unique_pools_swapped" _ ltac:(discriminate) Hp)|].
  unfold get_num.
  rewrite (output_lookup_swap lp swap _ "avg_swap_size" _ ltac:(discriminate) Ha).
  rewrite (output_lookup_swap lp swap _ "total_swap_volume" _ ltac:(discriminate) Hv).
  rewrite !num_sanitize.
  destruct (df_empty swaps).
  - split; [lia|]. split; [lia|]. cbn. ring.
  - pose proof (nunique_bounds (pool_id <$> rows swaps)) as Hpools.
    pose proof (dropna_set_size (token_in_symbol <$> rows swaps)) as Hin.
    pose proof (dropna_set_size (token_out_symbol <$> rows swaps)) as Hout.
    rewrite length_fmap in Hpools, Hin, Hout.
    assert (Hunion :
      size (dropna_set (token_in_symbol <$> rows swaps)
            ∪ dropna_set (token_out_symbol <$> rows swaps))
      <= size (dropna_set (token_in_symbol <$> rows swaps))
         + size (dropna_set (token_out_symbol <$> rows swaps))).
    { rewrite size_union_alt.
      assert (size (dropna_set (token_out_symbol <$> rows swaps)
                    ∖ dropna_set (token_in_symbol <$> rows swaps))
              <= size (dropna_set (token_out_symbol <$> rows swaps)))
        by (apply subseteq_size, subseteq_difference_l; reflexivity).
      lia. }
    unfold df_len. split; [lia|]. split; [lia|].
    destruct (decide _) as [Hpos|Hzero]; cbn [num].
    + field. intros Hz. unfold Qeq in Hz. cbn [Qnum Qden inject_Z] in Hz.
      unfold df_len in Hpos. lia.
    + assert (rows swaps = []) as ->
        by (unfold df_len in Hzero; destruct (rows swaps);
            [reflexivity | cbn in Hzero; lia]).
      cbn. ring.
Qed.

Lemma swap_feature_bounds_witness :
  exists s f,
    process_wallet sample_now sample_wallet_message = Ok (s, f)
    /\ exists n k : Z,
         f !! "num_swaps" = Some (VInt n)
         /\ f !! "token_diversity" = Some (VInt k)
         /\ (0 <= k <= 2 * n)%Z.
Proof.
  destruct (process_wallet sample_now sample_wallet_message)
    as [[s f]|e] eqn:Hrun; [|discriminate Hrun].
  exists s, f. split; [reflexivity|].
  destruct (swap_feature_bounds sample_now sample_wallet_message s f Hrun)
    as (n & k & p & Hn & Hk & _ & _ & Hkn & _).
  exists n, k. split; [exact Hn|]. split; [exact Hk | exact Hkn].
Defined.

Lemma output_get_num_lp (lp swap : gmap string value) (count : value)
    key dflt :
  key <> "transaction_count" ->
  key ∉ dom swap ->
  get_num (<["transaction_count" := count]> (_sanitize_features (swap ∪ lp)))
          key dflt
  = get_num lp key dflt.
Proof.
  intros Hne Hswap. rewrite get_num_output by exact Hne.
  apply get_num_union_r. now apply not_elem_of_dom.
Qed.

Lemma not_swap_key (swap : gmap string value) key :
  dom swap
  = list_to_set
      ["total_swap_volume"; "num_swaps"; "unique_pools_swapped";
       "avg_swap_size"; "token_diversity"] ->
  key ∉ ["total_swap_volume"; "num_swaps"; "unique_pools_swapped";
         "avg_swap_size"; "token_diversity"] ->
  key ∉ dom swap.
Proof. intros -> Hkey. now rewrite elem_of_list_to_set. Qed.

Ltac not_a_swap_key Hds :=
  apply (not_swap_key _ _ Hds); rewrite !elem_of_cons, elem_of_nil;
  intros [H|[H|[H|[H|[H|[]]]]]]; discriminate H.

(** X4.  In the returned features the withdraw ratio is 0.0 whenever the
    total deposited is not positive, whatever was withdrawn; otherwise the
    ratio times the total deposited is the total withdrawn. *)
Theorem withdraw_ratio_relation now wallet_data s f :
  process_wallet now wallet_data = Ok (s, f) ->
  let deposited := get_num f "total_deposit_usd" 0 in
  let withdrawn := get_num f "total_withdraw_usd" 0 in
  let ratio := get_num f "withdraw_ratio" 0 in
  ((deposited <= 0)%Q -> ratio = 0%Q)
  /\ ((0 < deposited)%Q -> (ratio * deposited == withdrawn)%Q).
Proof.
  intros Hrun.
  apply process_wallet_ok in Hrun as (lp & swap & _ & Hlp & Hswap & _ & ->).
  apply swap_features_entries in Hswap as (_ & _ & _ & _ & _ & Hds).
  pose proof (lp_features_lookup _ _ _ Hlp)
    as (Hd & Hr & _ & Hw & _).
  cbv zeta in *.
  rewrite !output_get_num_lp by (try discriminate; not_a_swap_key Hds).
  rewrite Hd, Hr. unfold get_num. rewrite Hw. cbn [num].
  set (d := series_sum _) in *. set (w := series_sum _) in *.
  destruct (Qle_bool d 0) eqn:E.
  - apply Qle_bool_iff in E. split; [reflexivity | lra].
  - assert (~ (d <= 0)%Q) by (rewrite <- Qle_bool_iff; congruence).
    split; [lra|]. intros _. field. lra.
Qed.

Lemma withdraw_ratio_relation_witness :
  exists s f,
    process_wallet sample_now sample_wallet_message = Ok (s, f)
    /\ (get_num f "withdraw_ratio" 0 * get_num f "total_deposit_usd" 0
        == get_num f "total_withdraw_usd" 0)%Q.
Proof.
  destruct (process_wallet sample_now sample_wallet_message)
    as [[s f]|e] eqn:Hrun; [|discriminate Hrun].
  exists s, f. split; [reflexivity|].
  destruct (withdraw_ratio_relation sample_now sample_wallet_message s f Hrun)
    as [_ Hratio].
  apply Hratio. injection Hrun as _ <-. reflexivity.
Defined.

Lemma series_max_ge (t : Z) (ts : list Z) w :
  w ∈ t :: ts -> (w <= series_max t ts)%Z.
Proof.
  induction ts as [|u ts IH]; cbn.
  - rewrite elem_of_cons, elem_of_nil. intros [-> | []]. lia.
  - change (foldr Z.max t ts) with (series_max t ts).
    rewrite !elem_of_cons. intros [-> | [-> | Hin]].
    + assert (t <= series_max t ts)%Z by (apply IH; left). lia.
    + lia.
    + assert (w <= series_max t ts)%Z by (apply IH; now right). lia.
Qed.

Lemma series_max_in (t : Z) (ts : list Z) : series_max t ts ∈ t :: ts.
Proof.
  induction ts as [|u ts IH]; cbn; [left|].
  change (foldr Z.max t ts) with (series_max t ts).
  destruct (Z.max_spec u (series_max t ts)) as [[_ ->] | [_ ->]].
  - apply elem_of_cons in IH as [-> | IH]; [left | right; now right].
  - right; left.
Qed.

(** X7.  In the returned features the account age is the span, in days,
    between the earliest and the latest retained timestamp, of whatever
    action: it is never negative, and zero when all retained transactions
    share a timestamp. *)
Theorem account_age_is_span now wallet_data s f :
  process_wallet now wallet_data = Ok (s, f) ->
  let stamps := timestamp <$> rows (_preprocess_dex_transactions wallet_data) in
  exists earliest latest : Z,
    earliest ∈ stamps /\ latest ∈ stamps
    /\ (forall t, t ∈ stamps -> (earliest <= t <= latest)%Z)
    /\ get_num f "account_age_days" 0
       = (inject_Z (latest - earliest) / 86400)%Q
    /\ (0 <= get_num f "account_age_days" 0)%Q.
Proof.
  intros Hrun.
  apply process_wallet_ok in Hrun
    as (lp & swap & Hfull & Hlp & Hswap & _ & ->).
  apply swap_features_entries in Hswap as (_ & _ & _ & _ & _ & Hds).
  apply lp_features_entries in Hlp as (_ & _ & _ & _ & _ & _ & Hage & _).
  cbv zeta. rewrite output_get_num_lp by (try discriminate; not_a_swap_key Hds).
  unfold get_num. rewrite Hage, Hfull.
  destruct (timestamp <$> rows (_preprocess_dex_transactions wallet_data))
    as [|t ts] eqn:E.
  { unfold df_empty in Hfull.
    destruct (rows (_preprocess_dex_transactions wallet_data));
      [discriminate Hfull | discriminate E]. }
  exists (series_min t ts), (series_max t ts). cbn [num].
  split; [apply series_min_in|]. split; [apply series_max_in|].
  split; [intros w Hw; split;
          [now apply series_min_le | now apply series_max_ge]|].
  split; [reflexivity|].
  apply Qle_shift_div_l; [reflexivity|]. rewrite Qmult_0_l.
  change 0%Q with (inject_Z 0). rewrite <- Zle_Qle.
  pose proof (series_min_le t ts t ltac:(left)).
  pose proof (series_max_ge t ts t ltac:(left)). lia.
Qed.

Lemma account_age_is_span_witness :
  exists s f,
    process_wallet sample_now sample_wallet_message = Ok (s, f)
    /\ exists earliest latest : Z,
         (forall t,
             t ∈ timestamp
                   <$> rows (_preprocess_dex_transactions sample_wallet_message) ->
             (earliest <= t <= latest)%Z)
         /\ get_num f "account_age_days" 0
            = (inject_Z (latest - earliest) / 86400)%Q.
Proof.
  destruct (process_wallet sample_now sample_wallet_message)
    as [[s f]|e] eqn:Hrun; [|discriminate Hrun].
  exists s, f. split; [reflexivity|].
  destruct (account_age_is_span sample_now sample_wallet_message s f Hrun)
    as (earliest & latest & _ & _ & Hall & Hage & _).
  exists earliest, latest. split; [exact Hall | exact Hage].
Defined.

(** ** Normalization *)

(** X8.  The retained rows are, in the order of the input, the rows of the
    transactions of the groups tagged "dexes" whose timestamp converts: each
    carries the wallet address of the batch ("N/A" when the batch has none),
    and the document id, action, pool id and timestamp of its transaction;
    and every retained timestamp is within the range of pandas timestamps. *)
Theorem normalization_keeps_order wallet_data :
  (fun r => (wallet_address r, document_id r, action r, pool_id r, timestamp r))
    <$> rows (_preprocess_dex_transactions wallet_data)
  = omap
      (fun tx =>
         match to_datetime (Input.timestamp tx) with
         | Some t =>
             Some (default "N/A" (Input.wallet_address wallet_data),
                   Input.document_id tx, Input.action tx, Input.poolId tx, t)
         | None => None
         end)
      (dex_transactions wallet_data)
  /\ forall r, r ∈ rows (_preprocess_dex_transactions wallet_data) ->
       (Z.abs (timestamp r) <= 9223372036)%Z.
Proof.
  split.
  - rewrite rows_preprocess, collect_rows_eq.
    induction (dex_transactions wallet_data) as [|tx txs IH]; [reflexivity|].
    cbn [map omap list_omap]. unfold dropna_datetime at 1.
    rewrite make_row_timestamp.
    destruct (to_datetime (Input.timestamp tx)); [|exact IH].
    cbn [fmap list_fmap]. f_equal; [|exact IH].
    unfold make_row. now repeat destruct (decide _).
  - intros r Hr. apply retained_row_origin in Hr as (tx & _ & Hr).
    apply dropna_datetime_Some in Hr as (Hts & _).
    unfold to_datetime in Hts.
    destruct (timestamp _) as [t|]; [|discriminate].
    destruct (decide _); [|discriminate]. now injection Hts as <-.
Qed.

(** X9.  Only the transactions of the groups tagged "dexes" matter, not the
    groups they come in: two batches of one wallet with the same such
    transactions, in the same order, get the same result; so dropping every
    other group, or merging the "dexes" groups into one, changes nothing. *)
Theorem only_dex_transactions_matter now wallet_data wallet_data' :
  Input.wallet_address wallet_data = Input.wallet_address wallet_data' ->
  dex_transactions wallet_data = dex_transactions wallet_data' ->
  _preprocess_dex_transactions wallet_data
  = _preprocess_dex_transactions wallet_data'
  /\ process_wallet now wallet_data = process_wallet now wallet_data'.
Proof.
  intros Haddr Htxs.
  assert (Hpre : _preprocess_dex_transactions wallet_data
                 = _preprocess_dex_transactions wallet_data').
  { unfold _preprocess_dex_transactions.
    now rewrite !collect_rows_eq, Haddr, Htxs. }
  split; [exact Hpre|]. unfold process_wallet. now rewrite Hpre.
Qed.

Lemma dex_transactions_merged wallet_data :
  dex_transactions
    {| Input.wallet_address := Input.wallet_address wallet_data;
       Input.data := [dexes (dex_transactions wallet_data)] |}
  = dex_transactions wallet_data.
Proof. unfold dex_transactions. cbn. apply app_nil_r. Qed.

Lemma only_dex_transactions_matter_witness :
  process_wallet sample_now
    (dict_of sample_address (lending_data ++ sample_data))
  = process_wallet sample_now sample_wallet_message.
Proof.
  apply (only_dex_transactions_matter sample_now
           (dict_of sample_address (lending_data ++ sample_data))
           sample_wallet_message); reflexivity.
Defined.

(** ** The scoring formula *)

Lemma py_min_mono a a' c : (a <= a')%Q -> (Py.min a c <= Py.min a' c)%Q.
Proof.
  intros Hle. apply py_min_glb; [|apply py_min_le_r].
  eapply Qle_trans; [apply py_min_le_l | exact Hle].
Qed.

Lemma py_max_mono c a a' : (a <= a')%Q -> (Py.max c a <= Py.max c a')%Q.
Proof.
  intros Hle. apply py_max_lub; [apply py_max_ge_l|].
  eapply Qle_trans; [exact Hle | apply py_max_ge_r].
Qed.

Lemma scaled_mono (x y a b : Q) :
  (x <= y)%Q -> (0 < a)%Q -> (0 <= b)%Q -> (x / a * b <= y / a * b)%Q.
Proof.
  intros Hxy Ha Hb. apply Qmult_le_compat_r; [|exact Hb].
  apply Qmult_le_compat_r; [exact Hxy|].
  apply Qlt_le_weak, Qinv_lt_0_compat, Ha.
Qed.

(** X10.  The final score never decreases when the total deposited, the
    average holding time, the swap volume, the number of swaps or the token
    diversity grows, nor when the withdraw ratio shrinks. *)
Theorem score_is_monotone (lp lp' swap swap' : gmap string value) :
  (get_num lp "total_deposit_usd" 0 <= get_num lp' "total_deposit_usd" 0)%Q ->
  (get_num lp' "withdraw_ratio" 0 <= get_num lp "withdraw_ratio" 0)%Q ->
  (get_num lp "avg_hold_time_days" 0 <= get_num lp' "avg_hold_time_days" 0)%Q ->
  (get_num swap "total_swap_volume" 0 <= get_num swap' "total_swap_volume" 0)%Q ->
  (get_num swap "num_swaps" 0 <= get_num swap' "num_swaps" 0)%Q ->
  (get_num swap "token_diversity" 0 <= get_num swap' "token_diversity" 0)%Q ->
  ((_calculate_final_score lp swap).1 <= (_calculate_final_score lp' swap').1)%Q.
Proof.
  intros Hd Hr Hh Hv Hn Hk. cbn [_calculate_final_score fst].
  unfold lp_score, swap_score, volume_score_lp, retention_score, holding_score,
    volume_score_swap, frequency_score_swap, diversity_score_swap.
  assert (H1 := py_min_mono _ _ 300 (scaled_mono _ _ 10000 300 Hd
                  ltac:(reflexivity) ltac:(discriminate))).
  assert (H2 := py_max_mono 0
                  ((1 - get_num lp "withdraw_ratio" 0) * 250)
                  ((1 - get_num lp' "withdraw_ratio" 0) * 250)
                  ltac:(lra)).
  assert (H3 := py_min_mono _ _ 150 (scaled_mono _ _ 30 150 Hh
                  ltac:(reflexivity) ltac:(discriminate))).
  assert (H4 := py_min_mono _ _ 250 (scaled_mono _ _ 50000 250 Hv
                  ltac:(reflexivity) ltac:(discriminate))).
  assert (H5 := py_min_mono (get_num swap "num_swaps" 0 * 10)
                  (get_num swap' "num_swaps" 0 * 10) 200 ltac:(lra)).
  assert (H6 := py_min_mono (get_num swap "token_diversity" 0 * 20)
                  (get_num swap' "token_diversity" 0 * 20) 150 ltac:(lra)).
  repeat match goal with
         | H : (Py.min ?a ?c <= _)%Q |- _ =>
             let x := fresh "x" in set (x := Py.min a c) in *
         | H : (_ <= Py.min ?a ?c)%Q |- _ =>
             let x := fresh "x" in set (x := Py.min a c) in *
         | H : (Py.max ?a ?c <= _)%Q |- _ =>
             let x := fresh "x" in set (x := Py.max a c) in *
         | H : (_ <= Py.max ?a ?c)%Q |- _ =>
             let x := fresh "x" in set (x := Py.max a c) in *
         end.
  lra.
Qed.

Lemma score_is_monotone_witness :
  ((_calculate_final_score
      (list_to_map [("total_deposit_usd", VFloat 1000);
                    ("withdraw_ratio", VFloat (1 # 2));
                    ("avg_hold_time_days", VFloat 3)])
      zero_swap_features).1
   <= (_calculate_final_score
         (list_to_map [("total_deposit_usd", VFloat 2000);
                       ("withdraw_ratio", VFloat (1 # 4));
                       ("avg_hold_time_days", VFloat 3)])
         zero_swap_features).1)%Q.
Proof.
  apply score_is_monotone; vm_compute; discriminate.
Defined.




(** ** Holding time and the clock *)

Lemma holding_time_seconds_mono now now' withdraws d :
  (now <= now')%Q ->
  (holding_time_seconds now withdraws d
   <= holding_time_seconds now' withdraws d)%Q.
Proof.
  intros Hle. unfold holding_time_seconds.
  destruct (timestamp <$> filter _ _); lra.
Qed.

Lemma qsum_mono {A} (g g' : A -> Q) (l : list A) :
  (forall x, x ∈ l -> (g x <= g' x)%Q) ->
  (qsum (map g l) <= qsum (map g' l))%Q.
Proof.
  induction l as [|x l IH]; intros Hall; cbn; [lra|].
  change (foldr Qplus 0 (map g l))%Q with (qsum (map g l)).
  change (foldr Qplus 0 (map g' l))%Q with (qsum (map g' l)).
  assert (g x <= g' x)%Q by (apply Hall; left).
  assert (qsum (map g l) <= qsum (map g' l))%Q
    by (apply IH; intros y Hy; apply Hall; now right).
  lra.
Qed.

Lemma holding_time_mono now now' deposits withdraws :
  (now <= now')%Q ->
  (num (_calculate_holding_time now deposits withdraws)
   <= num (_calculate_holding_time now' deposits withdraws))%Q.
Proof.
  intros Hle. unfold _calculate_holding_time.
  destruct (df_empty deposits); [cbn; lra|].
  destruct (rows deposits) as [|d ds] eqn:E; [cbn; lra|].
  cbn [map num]. unfold np_mean.
  change (?x :: map ?g ds) with (map g (d :: ds)).
  rewrite !length_map.
  apply Qmult_le_compat_r.
  - apply qsum_mono. intros x _.
    apply Qmult_le_compat_r; [|discriminate].
    now apply holding_time_seconds_mono.
  - apply Qlt_le_weak, Qinv_lt_0_compat, length_pos_Q.
Qed.

(** The liquidity features at two clock values differ in the holding time
    only. *)
Lemma lp_features_at_another_time now now' df lp :
  _calculate_lp_features now df = Ok lp ->
  _calculate_lp_features now' df
  = Ok (<["avg_hold_time_days" :=
           _calculate_holding_time now' (where_action df "deposit")
             (where_action df "withdraw")]> lp).
Proof.
  unfold _calculate_lp_features, column. cbn [columns where_action].
  destruct (decide _); [|discriminate]. cbn [rbind rows].
  intros [= <-]. reflexivity.
Qed.

(** X12.  The clock matters through one feature only.  If the engine scores
    a batch at one time, it scores it at any later time, with the same
    features except [avg_hold_time_days], which is not lower, and with a
    score that is not lower. *)
Theorem later_run_scores_no_lower now now' wallet_data s f :
  (now <= now')%Q ->
  process_wallet now wallet_data = Ok (s, f) ->
  exists s' f',
    process_wallet now' wallet_data = Ok (s', f')
    /\ (forall key, key <> "avg_hold_time_days" -> f' !! key = f !! key)
    /\ (get_num f "avg_hold_time_days" 0
        <= get_num f' "avg_hold_time_days" 0)%Q
    /\ (s <= s')%Q.
Proof.
  intros Hle Hrun.
  apply process_wallet_ok in Hrun
    as (lp & swap & Hfull & Hlp & Hswap & -> & ->).
  pose proof (lp_features_at_another_time now now' _ _ Hlp) as Hlp'.
  pose proof (lp_features_lookup _ _ _ Hlp) as (_ & _ & Hh & _).
  pose proof (swap_features_entries _ _ Hswap) as (_ & _ & _ & _ & _ & Hds).
  set (df := _preprocess_dex_transactions wallet_data) in *.
  set (hold' := _calculate_holding_time now' (where_action df "deposit")
                  (where_action df "withdraw")) in *.
  assert (Hnot : "avg_hold_time_days" ∉ dom swap) by not_a_swap_key Hds.
  apply not_elem_of_dom in Hnot.
  eexists _, _. split.
  { unfold process_wallet. fold df. rewrite Hfull, Hlp', Hswap.
    cbn. reflexivity. }
  assert (Hhold : (get_num lp "avg_hold_time_days" 0
                   <= get_num (<["avg_hold_time_days" := hold']> lp)
                        "avg_hold_time_days" 0)%Q).
  { rewrite Hh. unfold get_num at 1. rewrite lookup_insert_eq.
    now apply holding_time_mono. }
  split; [|split].
  - intros key Hkey. unfold _sanitize_features.
    destruct (decide (key = "transaction_count")) as [->|Hne].
    + now rewrite !lookup_insert_eq.
    + rewrite !lookup_insert_ne by congruence.
      rewrite !lookup_fmap. f_equal.
      destruct (swap !! key) as [v|] eqn:E.
      * now rewrite !(lookup_union_Some_l swap _ key v E).
      * rewrite !lookup_union_r by exact E.
        now rewrite lookup_insert_ne by congruence.
  - rewrite !get_num_output by discriminate.
    now rewrite !get_num_union_r by exact Hnot.
  - apply (score_is_monotone lp (<["avg_hold_time_days" := hold']> lp)
             swap swap); try apply Qle_refl; try exact Hhold;
      unfold get_num; rewrite lookup_insert_ne by discriminate;
      apply Qle_refl.
Qed.

Lemma later_run_scores_no_lower_witness :
  exists s f s' f',
    process_wallet sample_now (dict_of sample_address future_deposit_data)
    = Ok (s, f)
    /\ process_wallet (sample_now + 86400)
         (dict_of sample_address future_deposit_data) = Ok (s', f')
    /\ (s <= s')%Q.
Proof.
  destruct (process_wallet sample_now
              (dict_of sample_address future_deposit_data))
    as [[s f]|e] eqn:Hrun; [|discriminate Hrun].
  destruct (later_run_scores_no_lower sample_now (sample_now + 86400)
              (dict_of sample_address future_deposit_data) s f
              ltac:(vm_compute; discriminate) Hrun)
    as (s' & f' & Hrun' & _ & _ & Hs).
  exists s, f, s', f'. split; [reflexivity|]. split; [exact Hrun' | exact Hs].
Defined.

(** * Further properties of the stream processor *)

Section MoreStreamProperties.
Context {Transport : Type} `{Environment Transport}.

Local Open Scope Z_scope.

(** The record lines 74-85 build for a scored batch. *)
Lemma scored_transaction_count now wallet_data s f :
  process_wallet now wallet_data = Ok (s, f) ->
  f !! "transaction_count" = Some (VInt (retained_count wallet_data)).
Proof.
  intros Hrun.
  apply process_wallet_ok in Hrun as (lp & swap & _ & _ & _ & _ & ->).
  now rewrite lookup_insert_eq, retained_count_eq.
Qed.

(** One validated message that scores, in full: the success record is handed
    to the producer; if the producer raises, the failure record follows. *)
Lemma handle_message_scored (wallet_address : string)
    (data : list Input.ProtocolData) (st : State Transport) s f :
  process_wallet (clock (S (clock_reads st))) (dict_of wallet_address data)
  = Ok (s, f) ->
  exists ts ms ts' ms' reads reads',
    let record :=
      Output.Success
        {| Output.s_wallet_address := wallet_address;
           Output.zscore := s;
           Output.s_timestamp := ts;
           Output.s_processing_time_ms := ms;
           Output.categories :=
             [{| Output.category := "dexes";
                 Output.score := s;
                 Output.transaction_count :=
                   VInt (retained_count (dict_of wallet_address data));
                 Output.features := delete "transaction_count" f |}] |} in
    let sent := produce_flush (producer st) (success_topic st) record in
    handle_message (Validated wallet_address data) st
    = match sent.2 with
      | None =>
          (Ok tt,
           {| success_topic := success_topic st;
              failure_topic := failure_topic st;
              producer := sent.1;
              clock_reads := reads;
              is_running := is_running st;
              processed_count := processed_count st + 1;
              success_count := success_count st + 1;
              failure_count := failure_count st |})
      | Some x =>
          let sent' :=
            produce_flush sent.1 (failure_topic st)
              (Output.Failure (failure_payload wallet_address x ts' ms')) in
          (match sent'.2 with Some y => Raise y | None => Ok tt end,
           {| success_topic := success_topic st;
              failure_topic := failure_topic st;
              producer := sent'.1;
              clock_reads := reads';
              is_running := is_running st;
              processed_count := processed_count st + 1;
              success_count := success_count st;
              failure_count :=
                match sent'.2 with
                | Some _ => failure_count st
                | None => failure_count st + 1
                end |})
      end.
Proof.
  intros Hrun. pose proof (scored_transaction_count _ _ _ _ Hrun) as Hcount.
  rewrite handle_message_unfold. cbn [deserialize_and_validate].
  unfold try_finally, try_except, score_and_send, mbind, M_bind, time_time.
  cbn [clock_reads success_topic failure_topic producer is_running
       processed_count success_count failure_count].
  rewrite Hrun.
  unfold mbind, M_bind, time_time, get_success_topic, _produce_message,
    incr_success, incr_processed.
  cbn [clock_reads success_topic failure_topic producer is_running
       processed_count success_count failure_count].
  rewrite Hcount.
  cbn [clock_reads success_topic failure_topic producer is_running
       processed_count success_count failure_count].
  set (start_time := clock (clock_reads st)).
  set (ts := Py.int (clock (S (S (S (clock_reads st)))))).
  set (ms := Py.int ((clock (S (S (clock_reads st))) - start_time) * 1000)).
  exists ts, ms,
    (Py.int (clock (S (S (S (S (S (clock_reads st)))))))),
    (Py.int ((clock (S (S (S (S (clock_reads st))))) - start_time) * 1000)),
    (S (S (S (S (clock_reads st))))),
    (S (S (S (S (S (S (clock_reads st))))))).
  cbv zeta.
  destruct (produce_flush (producer st) (success_topic st) _)
    as [tr [x|]] eqn:Hsent; cbn [fst snd]; [|reflexivity].
  unfold on_exception, mbind, M_bind, time_time, get_failure_topic,
    _produce_message, incr_failure.
  cbn [clock_reads success_topic failure_topic producer is_running
       processed_count success_count failure_count].
  destruct (produce_flush tr (failure_topic st) _) as [tr' [y|]];
    reflexivity.
Qed.

(** X13.  A validated batch the engine scores, with a producer that accepts
    the record: the one record handed to the producer is a success record on
    the success topic, with the wallet address, the score both as [zscore]
    and as the score of the single "dexes" category, the number of retained
    transactions as that category's transaction count, and the returned
    features without their [transaction_count] entry; the success and the
    processed counters move by one and the failure counter does not. *)
Theorem scored_message_is_reported (wallet_address : string)
    (data : list Input.ProtocolData) (st : State Transport) s f :
  process_wallet (clock (S (clock_reads st))) (dict_of wallet_address data)
  = Ok (s, f) ->
  exists ts ms,
    let sent :=
      produce_flush (producer st) (success_topic st)
        (Output.Success
           {| Output.s_wallet_address := wallet_address;
              Output.zscore := s;
              Output.s_timestamp := ts;
              Output.s_processing_time_ms := ms;
              Output.categories :=
                [{| Output.category := "dexes";
                    Output.score := s;
                    Output.transaction_count :=
                      VInt (retained_count (dict_of wallet_address data));
                    Output.features := delete "transaction_count" f |}] |}) in
    sent.2 = None ->
    let st' := (handle_message (Validated wallet_address data) st).2 in
    (handle_message (Validated wallet_address data) st).1 = Ok tt
    /\ producer st' = sent.1
    /\ success_count st' = success_count st + 1
    /\ failure_count st' = failure_count st
    /\ processed_count st' = processed_count st + 1.
Proof.
  intros Hrun.
  destruct (handle_message_scored wallet_address data st s f Hrun)
    as (ts & ms & ts' & ms' & reads & reads' & Hstep).
  exists ts, ms. cbv zeta in *. intros Haccepted.
  rewrite Haccepted in Hstep. rewrite Hstep. cbn. auto.
Qed.

(** X14.  A validated batch the engine scores, with a producer that raises
    [x] on the success record: the batch is then handled as a failure.  A
    failure record carrying the wallet address and the text of [x] is handed
    to the producer on the failure topic; the success counter does not move;
    and if that record is accepted the iteration completes with the failure
    counter moved by one. *)
Theorem refused_success_becomes_failure (wallet_address : string)
    (data : list Input.ProtocolData) (st : State Transport) s f :
  process_wallet (clock (S (clock_reads st))) (dict_of wallet_address data)
  = Ok (s, f) ->
  exists ts ms ts' ms',
    let sent :=
      produce_flush (producer st) (success_topic st)
        (Output.Success
           {| Output.s_wallet_address := wallet_address;
              Output.zscore := s;
              Output.s_timestamp := ts;
              Output.s_processing_time_ms := ms;
              Output.categories :=
                [{| Output.category := "dexes";
                    Output.score := s;
                    Output.transaction_count :=
                      VInt (retained_count (dict_of wallet_address data));
                    Output.features := delete "transaction_count" f |}] |}) in
    forall x, sent.2 = Some x ->
      let sent' :=
        produce_flush sent.1 (failure_topic st)
          (Output.Failure
             {| Output.wallet_address := wallet_address;
                Output.error := str_exn x;
                Output.timestamp := ts';
                Output.processing_time_ms := ms' |}) in
      let st' := (handle_message (Validated wallet_address data) st).2 in
      producer st' = sent'.1
      /\ success_count st' = success_count st
      /\ processed_count st' = processed_count st + 1
      /\ (sent'.2 = None ->
          (handle_message (Validated wallet_address data) st).1 = Ok tt
          /\ failure_count st' = failure_count st + 1).
Proof.
  intros Hrun.
  destruct (handle_message_scored wallet_address data st s f Hrun)
    as (ts & ms & ts' & ms' & reads & reads' & Hstep).
  exists ts, ms, ts', ms'. cbv zeta in *. intros x Hrefused.
  rewrite Hrefused in Hstep. rewrite Hstep. unfold failure_payload. cbn.
  split; [reflexivity|]. split; [reflexivity|]. split; [reflexivity|].
  intros Haccepted. rewrite Haccepted. now split.
Qed.

(** ** Counting and composing *)

(** X15.  Every polled message is counted once, and nothing else is: while
    the loop is still polling, [processed_count] has grown by exactly the
    number of polls that returned a message (empty polls and end-of-partition
    signals count for nothing); however the loop ends, it has grown by at
    most that number. *)
Theorem processed_count_counts_messages (events : list Event)
    (st : State Transport) :
  (processed_count (_processing_loop events st).2
   <= processed_count st + message_count events)
  /\ ((_processing_loop events st).1 = Polling ->
      processed_count (_processing_loop events st).2
      = processed_count st + message_count events).
Proof.
  revert st. induction events as [|ev events IH]; intros st.
  { cbn. destruct (is_running st); cbn; split; intros; lia. }
  assert (Hpos : 0 <= message_count events).
  { clear. induction events as [|[[| |]|] ? ?]; cbn [message_count]; lia. }
  cbn [_processing_loop]. destruct (is_running st).
  2:{ cbn. split; [|discriminate].
      destruct ev as [[| |]|]; cbn [message_count]; lia. }
  destruct ev as [[|code|m]|]; cbn [message_count].
  - apply IH.
  - destruct (decide _); [apply IH|]. cbn. split; [lia | discriminate].
  - destruct (handle_message_run m st) as (_ & _ & _ & Hp & _).
    destruct (handle_message m st) as [[[]|e] st']; cbn [fst snd] in *.
    + destruct (IH st') as [Hle Heq]. split; [lia|].
      intros Hend. specialize (Heq Hend). lia.
    + split; [lia | discriminate].
  - destruct (IH (stop st)) as [Hle Heq]. cbn [processed_count stop] in *.
    split; [exact Hle | exact Heq].
Qed.

(** X16.  Running the loop over two sequences of events in a row is running
    it over the first and, if it is still polling, over the second from the
    state reached; once the loop has been left or has crashed, later events
    are never handled.  So nothing polled after a stop request, or after a
    poll error other than the end-of-partition signal, is processed. *)
Theorem loop_composes (events events' : list Event) (st : State Transport) :
  _processing_loop (events ++ events') st
  = (match _processing_loop events st with
     | (Polling, st') => _processing_loop events' st'
     | ended => ended
     end)
  /\ (is_running st = true ->
      _processing_loop (StopRequested :: events') st = (Closed, stop st))
  /\ (forall code, is_running st = true -> code <> _PARTITION_EOF ->
      _processing_loop (Poll (PollError code) :: events') st = (Closed, st)).
Proof.
  split; [|split].
  - revert st. induction events as [|ev events IH]; intros st.
    { cbn [app _processing_loop]. destruct (is_running st) eqn:E;
        [reflexivity|]. destruct events'; cbn; now rewrite E. }
    cbn [app _processing_loop]. destruct (is_running st); [|reflexivity].
    destruct ev as [[|code|m]|]; try apply IH.
    + destruct (decide _); [apply IH | reflexivity].
    + destruct (handle_message m st) as [[[]|e] st']; [apply IH | reflexivity].
  - intros Hrun. cbn [_processing_loop]. rewrite Hrun.
    destruct events'; reflexivity.
  - intros code Hrun Hcode. cbn [_processing_loop]. rewrite Hrun.
    now rewrite decide_False.
Qed.

(** ** The lifecycle *)

Lemma loop_keeps_flag (events : list Event) (st : State Transport) :
  StopRequested ∉ events ->
  is_running (_processing_loop events st).2 = is_running st.
Proof.
  revert st. induction events as [|ev events IH]; intros st Hno.
  { cbn. destruct (is_running st) eqn:E; exact E. }
  assert (Hrest : StopRequested ∉ events)
    by (intros Hin; apply Hno; now right).
  cbn [_processing_loop]. destruct (is_running st) eqn:E; [|exact E].
  destruct ev as [[|code|m]|].
  - rewrite IH; [exact E | exact Hrest].
  - destruct (decide _); [rewrite IH; [exact E | exact Hrest] | exact E].
  - destruct (handle_message_run m st) as (_ & _ & Hr & _).
    destruct (handle_message m st) as [[[]|e] st']; cbn [fst snd] in *.
    + rewrite IH; [congruence | exact Hrest].
    + congruence.
  - destruct Hno. left.
Qed.

(** X17.  Starting and stopping are guarded by the running flag: a second
    [start_consumer] in a row starts no thread and changes nothing, and so
    does a second [stop_consumer]; neither touches the counters; and after
    [stop_consumer] the loop handles no further event: whatever is polled,
    it leaves at once with the state unchanged. *)
Theorem start_and_stop_are_guarded (st : State Transport)
    (events : list Event) :
  start_consumer (start_consumer st).1 = ((start_consumer st).1, false)
  /\ stop_consumer (stop_consumer st).1 = ((stop_consumer st).1, false)
  /\ is_running (start_consumer st).1 = true
  /\ is_running (stop_consumer st).1 = false
  /\ (get_stats (start_consumer st).1).1 = (get_stats st).1
  /\ (get_stats (stop_consumer st).1).1 = (get_stats st).1
  /\ _processing_loop events (stop_consumer st).1
     = (Closed, (stop_consumer st).1).
Proof.
  unfold start_consumer, stop_consumer, get_stats.
  destruct (is_running st) eqn:E; cbn [fst snd is_running stop
    processed_count success_count failure_count]; rewrite ?E;
    repeat split; try reflexivity;
    destruct events; cbn; now rewrite ?E.
Qed.

(** X18.  The loop never clears the running flag itself.  From a running
    state, unless a stop is requested, the flag is still set when the loop
    has ended, also when it was left on a fatal poll error or crashed on a
    producer fault: [get_stats] goes on reporting [is_running = true], and
    [start_consumer] then starts no new worker. *)
Theorem dead_worker_is_reported_running (events : list Event)
    (st : State Transport) :
  is_running st = true ->
  StopRequested ∉ events ->
  let st' := (_processing_loop events st).2 in
  (get_stats st').2 = true
  /\ start_consumer st' = (st', false).
Proof.
  intros Hrun Hno. cbv zeta.
  pose proof (loop_keeps_flag events st Hno) as Hflag.
  rewrite Hrun in Hflag. unfold get_stats, start_consumer. cbn [snd].
  now rewrite Hflag.
Qed.

End MoreStreamProperties.

(** ** What is handed to the producer *)

Section RecordsSent.
Context {Transport : Type} `{Environment Transport}.

Local Open Scope Z_scope.

(** Either an exception is raised before any record is sent, or the message
    is a validated batch that scores. *)
Lemma message_error_or_score (now : Q) (m : Message) :
  (exists e, message_error now m = Some e)
  \/ (exists wallet_address data s f,
        m = Validated wallet_address data
        /\ process_wallet now (dict_of wallet_address data) = Ok (s, f)).
Proof.
  destruct m as [e|raw e|wallet_address data]; cbn; eauto.
  destruct (process_wallet _ _) as [[s f]|e] eqn:E; eauto 10.
Qed.

Lemma handle_message_records (m : Message)
    (st : State (Transport * list (string * Output.Payload))) :
  let st' := (@handle_message _ (observed H) m st).2 in
  exists new,
    (producer st').2 = ((producer st).2 ++ new)%list
    /\ Forall (well_routed (success_topic st) (failure_topic st)) new
    /\ (1 <= length new <= 2)%nat
    /\ ((forall tr topic p, (produce_flush tr topic p).2 = None) ->
        length new = 1%nat).
Proof.
  cbv zeta.
  destruct (message_error_or_score
              (@clock _ (observed H) (S (clock_reads st))) m)
    as [[e Herr] | (wallet_address & data & s & f & -> & Hrun)].
  - destruct (@handle_message_failed _ (observed H) m st e Herr)
      as (ts & ms & reads & ->).
    cbn [snd fst producer produce_flush observed].
    eexists [_]. split; [reflexivity|].
    split; [repeat constructor|]. split; [cbn; lia|]. reflexivity.
  - destruct (@handle_message_scored _ (observed H) wallet_address data st s f
                Hrun)
      as (ts & ms & ts' & ms' & reads & reads' & ->).
    cbn [snd fst producer produce_flush observed].
    destruct (produce_flush (producer st).1 (success_topic st) _).2
      as [x|] eqn:Hsent.
    + cbn [snd fst producer]. eexists [_; _]. rewrite <- app_assoc.
      split; [reflexivity|]. split; [repeat constructor|].
      split; [cbn; lia|]. intros Haccepts. now rewrite Haccepts in Hsent.
    + cbn [snd fst producer]. eexists [_]. split; [reflexivity|].
      split; [repeat constructor|]. split; [cbn; lia|]. reflexivity.
Qed.

(** X19.  Whatever the producer does, every record the loop hands to it is
    routed by its kind: success records to the success topic and failure
    records to the failure topic, added in order after what was sent before.
    With a producer that accepts everything, exactly one record is handed
    over per processed message. *)
Theorem records_are_routed_by_kind (events : list Event)
    (st : State (Transport * list (string * Output.Payload))) :
  let st' := (@_processing_loop _ (observed H) events st).2 in
  exists new,
    (producer st').2 = ((producer st).2 ++ new)%list
    /\ Forall (well_routed (success_topic st) (failure_topic st)) new
    /\ ((forall tr topic p, (produce_flush tr topic p).2 = None) ->
        Z.of_nat (length new) = processed_count st' - processed_count st).
Proof.
  cbv zeta. revert st. induction events as [|ev events IH]; intros st.
  { exists []. cbn. destruct (is_running st); cbn;
      rewrite app_nil_r; repeat split; try constructor; intros; lia. }
  assert (Hnone : exists new : list (string * Output.Payload),
            (producer st).2 = ((producer st).2 ++ new)%list
            /\ Forall (well_routed (success_topic st) (failure_topic st)) new
            /\ ((forall tr topic p, (produce_flush tr topic p).2 = None) ->
                Z.of_nat (length new) = processed_count st - processed_count st)).
  { exists []. rewrite app_nil_r. repeat split; try constructor.
    intros; cbn; lia. }
  cbn [_processing_loop]. destruct (is_running st); [|exact Hnone].
  destruct ev as [[|code|m]|].
  - apply IH.
  - destruct (decide _); [apply IH | exact Hnone].
  - destruct (handle_message_records m st)
      as (new & Hlog & Hrouted & Hlen & Hone).
    destruct (@handle_message_run _ (observed H) m st)
      as (Hs & Hf & _ & Hp & _).
    destruct (@handle_message _ (observed H) m st) as [[[]|e] st'];
      cbn [fst snd] in *.
    + destruct (IH st') as (new' & Hlog' & Hrouted' & Hcount').
      exists (new ++ new')%list. rewrite Hlog', Hlog, app_assoc.
      split; [reflexivity|]. split.
      * apply Forall_app. split; [exact Hrouted|]. now rewrite <- Hs, <- Hf.
      * intros Haccepts. rewrite length_app, Nat2Z.inj_add.
        rewrite (Hcount' Haccepts), (Hone Haccepts). lia.
    + exists new. split; [exact Hlog|]. split; [exact Hrouted|].
      intros Haccepts. rewrite (Hone Haccepts). lia.
  - destruct (IH (stop st)) as (new & Hlog & Hrouted & Hcount).
    exists new. split; [exact Hlog|]. split; [exact Hrouted | exact Hcount].
Qed.

End RecordsSent.

(** ** The stream processor on the fixtures, continued *)

Lemma scored_message_is_reported_witness :
  (@handle_message _ recording
     (Validated sample_address sample_data) started).1 = Ok tt
  /\ success_count
       (@handle_message _ recording
          (Validated sample_address sample_data) started).2 = 1%Z.
Proof.
  destruct (process_wallet (@clock _ recording 1) sample_wallet_message)
    as [[s f]|e] eqn:Hrun; [|discriminate Hrun].
  destruct (@scored_message_is_reported _ recording sample_address sample_data
              started s f Hrun) as (ts & ms & Hreported).
  destruct (Hreported eq_refl) as (Hok & _ & Hcount & _).
  split; [exact Hok | exact Hcount].
Defined.

Lemma refused_success_becomes_failure_witness :
  (@handle_message _ refusing_success
     (Validated sample_address sample_data) started).1 = Ok tt
  /\ get_stats
       (@handle_message _ refusing_success
          (Validated sample_address sample_data) started).2
     = (1, 0, 1, true)%Z.
Proof.
  destruct (process_wallet (@clock _ refusing_success 1) sample_wallet_message)
    as [[s f]|e] eqn:Hrun; [|discriminate Hrun].
  destruct (@refused_success_becomes_failure _ refusing_success sample_address
              sample_data started s f Hrun)
    as (ts & ms & ts' & ms' & Hrefused).
  destruct (Hrefused (Exception "Message size too large") eq_refl)
    as (_ & Hsuccess & Hprocessed & Haccepted).
  destruct (Haccepted eq_refl) as (Hok & Hfailure).
  split; [exact Hok|]. unfold get_stats.
  rewrite Hsuccess, Hprocessed, Hfailure.
  destruct (handle_message_run (H := refusing_success)
              (Validated sample_address sample_data) started)
    as (_ & _ & Hflag & _).
  now rewrite Hflag.
Defined.

Lemma processed_count_counts_messages_witness :
  processed_count
    (@_processing_loop _ recording
       [Poll PollNone;
        Poll (PollMessage (Validated sample_address sample_data));
        Poll (PollError _PARTITION_EOF);
        Poll (PollMessage (Malformed (Exception "Expecting value")))]
       started).2
  = 2%Z.
Proof.
  destruct (@processed_count_counts_messages _ recording
              [Poll PollNone;
               Poll (PollMessage (Validated sample_address sample_data));
               Poll (PollError _PARTITION_EOF);
               Poll (PollMessage (Malformed (Exception "Expecting value")))]
              started) as [_ Hcount].
  rewrite Hcount; [reflexivity|]. vm_compute. reflexivity.
Defined.

Lemma loop_composes_witness :
  @_processing_loop _ recording
    [StopRequested; Poll (PollMessage (Validated sample_address sample_data))]
    started
  = (Closed, stop started)
  /\ @_processing_loop _ recording
       [Poll (PollError (-195));
        Poll (PollMessage (Validated sample_address sample_data))]
       started
     = (Closed, started).
Proof.
  destruct (@loop_composes _ recording []
              [Poll (PollMessage (Validated sample_address sample_data))]
              started) as (_ & Hstop & Hfatal).
  split; [apply Hstop; reflexivity|].
  apply Hfatal; [reflexivity | discriminate].
Defined.

Lemma dead_worker_is_reported_running_witness :
  (@_processing_loop _ recording [Poll (PollError (-195))] started).1 = Closed
  /\ (get_stats
        (@_processing_loop _ recording [Poll (PollError (-195))] started).2).2
     = true
  /\ (start_consumer
        (@_processing_loop _ recording [Poll (PollError (-195))] started).2).2
     = false.
Proof.
  split; [reflexivity|].
  destruct (@dead_worker_is_reported_running _ recording
              [Poll (PollError (-195))] started eq_refl) as [Hstats Hstart].
  - rewrite elem_of_cons, elem_of_nil. intros [Hstop | []]. discriminate Hstop.
  - split; [exact Hstats | now rewrite Hstart].
Defined.

Lemma records_are_routed_by_kind_witness :
  exists new,
    (producer
       (@_processing_loop _ (observed recording)
          [Poll (PollMessage (Validated sample_address sample_data));
           Poll (PollMessage (Validated sample_address unknown_action_data))]
          started_observed).2).2
    = new
    /\ Forall (well_routed "wallet-scores-success" "wallet-scores-failure") new
    /\ length new = 2.
Proof.
  destruct (@records_are_routed_by_kind _ recording
              [Poll (PollMessage (Validated sample_address sample_data));
               Poll (PollMessage
                       (Validated sample_address unknown_action_data))]
              started_observed) as (new & Hlog & Hrouted & Hcount).
  exists new. split; [exact Hlog|]. split; [exact Hrouted|].
  apply Nat2Z.inj. rewrite Hcount by reflexivity. vm_compute. reflexivity.
Defined.

(** * The order of the transactions *)

Lemma py_min_proper a a' c : (a == a')%Q -> (Py.min a c == Py.min a' c)%Q.
Proof.
  intros Heq. apply Qle_antisym; apply py_min_mono; rewrite Heq; apply Qle_refl.
Qed.

Lemma Qle_bool_proper a a' c : (a == a')%Q -> Qle_bool a c = Qle_bool a' c.
Proof.
  intros Heq. destruct (Qle_bool a c) eqn:E, (Qle_bool a' c) eqn:E';
    try reflexivity.
  - apply Qle_bool_iff in E. rewrite Heq in E. apply Qle_bool_iff in E.
    congruence.
  - apply Qle_bool_iff in E'. rewrite <- Heq in E'. apply Qle_bool_iff in E'.
    congruence.
Qed.

Lemma series_sum_perm (cells cells' : list (option Q)) :
  cells ≡ₚ cells' -> (series_sum cells == series_sum cells')%Q.
Proof.
  induction 1 as [|c l l' _ IH|c c' l|l l' l'' _ IH _ IH']; cbn.
  - reflexivity.
  - change (foldr _ _ l) with (series_sum l).
    change (foldr _ _ l') with (series_sum l'). now rewrite IH.
  - ring.
  - now rewrite IH.
Qed.

Lemma qsum_perm (xs xs' : list Q) : xs ≡ₚ xs' -> (qsum xs == qsum xs')%Q.
Proof.
  induction 1 as [|c l l' _ IH|c c' l|l l' l'' _ IH _ IH']; cbn.
  - reflexivity.
  - change (foldr Qplus 0%Q l) with (qsum l).
    change (foldr Qplus 0%Q l') with (qsum l'). now rewrite IH.
  - ring.
  - now rewrite IH.
Qed.

Lemma same_frame_where_action df df' a :
  same_frame df df' -> same_frame (where_action df a) (where_action df' a).
Proof.
  intros [Hrows Hcols]. split; [|exact Hcols].
  cbn [rows where_action]. now rewrite Hrows.
Qed.

Lemma same_frame_empty df df' :
  same_frame df df' -> df_empty df = df_empty df'.
Proof.
  intros [Hrows Hcols]. unfold df_empty.
  destruct (rows df) as [|r rs], (rows df') as [|r' rs']; try reflexivity.
  - now apply Permutation_nil_cons in Hrows.
  - symmetry in Hrows. now apply Permutation_nil_cons in Hrows.
  - destruct (columns df) as [|c cs], (columns df') as [|c' cs'];
      try reflexivity.
    + assert (Hin : c' ∈ []) by (apply Hcols; left). now apply elem_of_nil in Hin.
    + assert (Hin : c ∈ []) by (apply Hcols; left). now apply elem_of_nil in Hin.
Qed.

Lemma same_frame_len df df' : same_frame df df' -> df_len df = df_len df'.
Proof. intros [Hrows _]. unfold df_len. now rewrite Hrows. Qed.

(** The holding time of a deposit depends on the set of withdraw
    timestamps only. *)
Lemma holding_time_seconds_perm now withdraws withdraws' d :
  rows withdraws ≡ₚ rows withdraws' ->
  holding_time_seconds now withdraws d = holding_time_seconds now withdraws' d.
Proof.
  intros Hperm.
  apply (holding_duration_functional now (timestamp <$> rows withdraws')
           (timestamp d)); [|apply holding_time_seconds_spec].
  pose proof (holding_time_seconds_spec now withdraws d) as Hspec.
  assert (Hmem : forall w, w ∈ timestamp <$> rows withdraws
                           <-> w ∈ timestamp <$> rows withdraws')
    by (intros w; now rewrite Hperm).
  destruct Hspec as [(w & (Hin & Hlt & Hmin) & Heq) | [Hnone Heq]].
  - left. exists w. split; [|exact Heq].
    split; [now apply Hmem|]. split; [exact Hlt|].
    intros w' Hw'. apply Hmin. now apply Hmem.
  - right. split; [|exact Heq]. intros w Hw. apply Hnone. now apply Hmem.
Qed.

Lemma holding_time_perm now deposits deposits' withdraws withdraws' :
  same_frame deposits deposits' ->
  same_frame withdraws withdraws' ->
  (num (_calculate_holding_time now deposits withdraws)
   == num (_calculate_holding_time now deposits' withdraws'))%Q.
Proof.
  intros Hd [Hw _]. unfold _calculate_holding_time.
  rewrite <- (same_frame_empty _ _ Hd). destruct Hd as [Hd _].
  destruct (df_empty deposits); [reflexivity|].
  assert (Hlists :
    map (fun deposit =>
           (holding_time_seconds now withdraws deposit / 86400)%Q)
        (rows deposits)
    ≡ₚ map (fun deposit =>
              (holding_time_seconds now withdraws' deposit / 86400)%Q)
           (rows deposits')).
  { rewrite <- Hd. erewrite map_ext; [reflexivity|].
    intros d. cbn. now rewrite (holding_time_seconds_perm now _ _ d Hw). }
  destruct (map _ (rows deposits)) as [|x xs] eqn:E,
           (map _ (rows deposits')) as [|x' xs'] eqn:E'.
  - reflexivity.
  - now apply Permutation_nil_cons in Hlists.
  - symmetry in Hlists. now apply Permutation_nil_cons in Hlists.
  - cbn [num]. unfold np_mean.
    now rewrite (qsum_perm _ _ Hlists), (Permutation_length Hlists).
Qed.

Lemma series_extremes_perm (t t' : Z) (ts ts' : list Z) :
  t :: ts ≡ₚ t' :: ts' ->
  series_min t ts = series_min t' ts' /\ series_max t ts = series_max t' ts'.
Proof.
  intros Hperm. split.
  - pose proof (series_min_in t ts) as Hin.
    pose proof (series_min_in t' ts') as Hin'.
    rewrite Hperm in Hin. rewrite <- Hperm in Hin'.
    pose proof (series_min_le t ts _ Hin'). pose proof (series_min_le t' ts' _ Hin).
    lia.
  - pose proof (series_max_in t ts) as Hin.
    pose proof (series_max_in t' ts') as Hin'.
    rewrite Hperm in Hin. rewrite <- Hperm in Hin'.
    pose proof (series_max_ge t ts _ Hin'). pose proof (series_max_ge t' ts' _ Hin).
    lia.
Qed.

Lemma same_features_intro (m m' : gmap string value) (keys : list string) :
  dom m = list_to_set keys ->
  dom m' = list_to_set keys ->
  (forall key, key ∈ keys -> (get_num m key 0 == get_num m' key 0)%Q) ->
  same_features m m'.
Proof.
  intros Hdom Hdom' Hkeys. split; [congruence|]. intros key.
  destruct (decide (key ∈ keys)) as [Hin|Hout]; [now apply Hkeys|].
  assert (m !! key = None) as Hm
    by (apply not_elem_of_dom; now rewrite Hdom, elem_of_list_to_set).
  assert (m' !! key = None) as Hm'
    by (apply not_elem_of_dom; now rewrite Hdom', elem_of_list_to_set).
  unfold get_num. now rewrite Hm, Hm'.
Qed.

Lemma column_perm {A} df df' key (cell : Row Z -> A) :
  same_frame df df' ->
  match column df key cell, column df' key cell with
  | Ok l, Ok l' => l ≡ₚ l'
  | Raise e, Raise e' => e = e'
  | _, _ => False
  end.
Proof.
  intros [Hrows Hcols]. unfold column.
  destruct (decide (key ∈ columns df)) as [Hin|Hout].
  - rewrite decide_True by now apply Hcols. now rewrite Hrows.
  - rewrite decide_False; [reflexivity|]. intros Hin. now apply Hout, Hcols.
Qed.

Lemma lp_features_perm now df df' :
  same_frame df df' ->
  match _calculate_lp_features now df, _calculate_lp_features now df' with
  | Ok lp, Ok lp' => same_features lp lp'
  | Raise e, Raise e' => e = e'
  | _, _ => False
  end.
Proof.
  intros Hsame.
  pose proof (same_frame_where_action _ _ "deposit" Hsame) as Hdep.
  pose proof (same_frame_where_action _ _ "withdraw" Hsame) as Hwd.
  pose proof (column_perm _ _ "amount_usd" amount_usd Hdep) as Hcd.
  pose proof (column_perm _ _ "amount_usd" amount_usd Hwd) as Hcw.
  destruct (_calculate_lp_features now df) as [lp|e] eqn:Hlp,
           (_calculate_lp_features now df') as [lp'|e'] eqn:Hlp'.
  - pose proof (lp_features_entries _ _ _ Hlp)
      as (H1 & H2 & H3 & H4 & H5 & H6 & H7 & H8 & Hdom).
    pose proof (lp_features_entries _ _ _ Hlp')
      as (H1' & H2' & H3' & H4' & H5' & H6' & H7' & H8' & Hdom').
    cbv zeta in *.
    assert (Hsd := series_sum_perm _ _
              (fmap_Permutation amount_usd _ _ (proj1 Hdep))).
    assert (Hsw := series_sum_perm _ _
              (fmap_Permutation amount_usd _ _ (proj1 Hwd))).
    apply (same_features_intro _ _ _ Hdom Hdom'). intros key Hkey.
    rewrite !elem_of_cons, elem_of_nil in Hkey.
    destruct Hkey as [-> | [-> | [-> | [-> | [-> | [-> | [-> | [-> | []]]]]]]]];
      unfold get_num.
    + rewrite H1, H1'. exact Hsd.
    + rewrite H2, H2'. exact Hsw.
    + rewrite H3, H3'. cbn [num]. now rewrite (same_frame_len _ _ Hdep).
    + rewrite H4, H4'. cbn [num]. now rewrite (same_frame_len _ _ Hwd).
    + rewrite H5, H5'. rewrite (Qle_bool_proper _ _ 0 Hsd).
      destruct (Qle_bool
                  (series_sum
                     (amount_usd <$> rows (where_action df' "deposit"))) 0);
        cbn [num]; [reflexivity|].
      now rewrite Hsd, Hsw.
    + rewrite H6, H6'. now apply holding_time_perm.
    + rewrite H7, H7'. rewrite <- (same_frame_empty _ _ Hsame).
      destruct (df_empty df); [reflexivity|].
      pose proof (fmap_Permutation timestamp _ _ (proj1 Hsame)) as Hts.
      destruct (timestamp <$> rows df) as [|t ts],
               (timestamp <$> rows df') as [|t' ts'].
      * reflexivity.
      * now apply Permutation_nil_cons in Hts.
      * symmetry in Hts. now apply Permutation_nil_cons in Hts.
      * cbn [num]. destruct (series_extremes_perm _ _ _ _ Hts) as [-> ->].
        reflexivity.
    + rewrite H8, H8'. cbn [num]. unfold nunique.
      now rewrite (proj1 Hsame).
  - exfalso. unfold _calculate_lp_features in Hlp, Hlp'.
    destruct (column (where_action df "deposit") _ _),
             (column (where_action df' "deposit") _ _); try contradiction;
      cbn [rbind] in *; try discriminate.
    destruct (column (where_action df "withdraw") _ _),
             (column (where_action df' "withdraw") _ _); try contradiction;
      cbn [rbind] in *; discriminate.
  - exfalso. unfold _calculate_lp_features in Hlp, Hlp'.
    destruct (column (where_action df "deposit") _ _),
             (column (where_action df' "deposit") _ _); try contradiction;
      cbn [rbind] in *; try discriminate.
    destruct (column (where_action df "withdraw") _ _),
             (column (where_action df' "withdraw") _ _); try contradiction;
      cbn [rbind] in *; discriminate.
  - unfold _calculate_lp_features in Hlp, Hlp'.
    destruct (column (where_action df "deposit") _ _),
             (column (where_action df' "deposit") _ _); try contradiction;
      cbn [rbind] in *; [|congruence].
    destruct (column (where_action df "withdraw") _ _),
             (column (where_action df' "withdraw") _ _); try contradiction;
      cbn [rbind] in *; try discriminate. congruence.
Qed.

Lemma swap_features_perm df df' :
  same_frame df df' ->
  match _calculate_swap_features df, _calculate_swap_features df' with
  | Ok swap, Ok swap' => same_features swap swap'
  | Raise e, Raise e' => e = e'
  | _, _ => False
  end.
Proof.
  intros Hsame.
  pose proof (same_frame_where_action _ _ "swap" Hsame) as Hswaps.
  pose proof (same_frame_empty _ _ Hswaps) as Hempty.
  pose proof (column_perm _ _ "amount_usd" amount_usd Hswaps) as Hc1.
  pose proof (column_perm _ _ "token_in_symbol" token_in_symbol Hswaps) as Hc2.
  pose proof (column_perm _ _ "token_out_symbol" token_out_symbol Hswaps)
    as Hc3.
  destruct (_calculate_swap_features df) as [swap|e] eqn:Hswap,
           (_calculate_swap_features df') as [swap'|e'] eqn:Hswap'.
  - pose proof (swap_features_entries _ _ Hswap)
      as (H1 & H2 & H3 & H4 & H5 & Hdom).
    pose proof (swap_features_entries _ _ Hswap')
      as (H1' & H2' & H3' & H4' & H5' & Hdom').
    cbv zeta in *. rewrite <- Hempty in *.
    assert (Hsum := series_sum_perm _ _
              (fmap_Permutation amount_usd _ _ (proj1 Hswaps))).
    pose proof (same_frame_len _ _ Hswaps) as Hlen.
    apply (same_features_intro _ _ _ Hdom Hdom'). intros key Hkey.
    rewrite !elem_of_cons, elem_of_nil in Hkey.
    destruct Hkey as [-> | [-> | [-> | [-> | [-> | []]]]]]; unfold get_num.
    + rewrite H1, H1'.
      destruct (df_empty (where_action df "swap")); cbn [num];
        [reflexivity | exact Hsum].
    + rewrite H2, H2'. now rewrite Hlen.
    + rewrite H3, H3'. unfold nunique. now rewrite (proj1 Hswaps).
    + rewrite H4, H4'. rewrite <- Hlen.
      destruct (df_empty (where_action df "swap")); [reflexivity|].
      destruct (decide _); cbn [num]; [|reflexivity]. now rewrite Hsum.
    + rewrite H5, H5'. unfold dropna_set. now rewrite (proj1 Hswaps).
  - exfalso. unfold _calculate_swap_features in Hswap, Hswap'.
    rewrite <- Hempty in Hswap'.
    destruct (df_empty (where_action df "swap")); [discriminate|].
    destruct (column (where_action df "swap") "amount_usd" _),
             (column (where_action df' "swap") "amount_usd" _);
      try contradiction; cbn [rbind] in *; try discriminate.
    destruct (column (where_action df "swap") "token_in_symbol" _),
             (column (where_action df' "swap") "token_in_symbol" _);
      try contradiction; cbn [rbind] in *; try discriminate.
    destruct (column (where_action df "swap") "token_out_symbol" _),
             (column (where_action df' "swap") "token_out_symbol" _);
      try contradiction; cbn [rbind] in *; discriminate.
  - exfalso. unfold _calculate_swap_features in Hswap, Hswap'.
    rewrite <- Hempty in Hswap'.
    destruct (df_empty (where_action df "swap")); [discriminate|].
    destruct (column (where_action df "swap") "amount_usd" _),
             (column (where_action df' "swap") "amount_usd" _);
      try contradiction; cbn [rbind] in *; try discriminate.
    destruct (column (where_action df "swap") "token_in_symbol" _),
             (column (where_action df' "swap") "token_in_symbol" _);
      try contradiction; cbn [rbind] in *; try discriminate.
    destruct (column (where_action df "swap") "token_out_symbol" _),
             (column (where_action df' "swap") "token_out_symbol" _);
      try contradiction; cbn [rbind] in *; discriminate.
  - unfold _calculate_swap_features in Hswap, Hswap'.
    rewrite <- Hempty in Hswap'.
    destruct (df_empty (where_action df "swap")); [discriminate|].
    destruct (column (where_action df "swap") "amount_usd" _),
             (column (where_action df' "swap") "amount_usd" _);
      try contradiction; cbn [rbind] in *; [|congruence].
    destruct (column (where_action df "swap") "token_in_symbol" _),
             (column (where_action df' "swap") "token_in_symbol" _);
      try contradiction; cbn [rbind] in *; [|congruence].
    destruct (column (where_action df "swap") "token_out_symbol" _),
             (column (where_action df' "swap") "token_out_symbol" _);
      try contradiction; cbn [rbind] in *; [discriminate|congruence].
Qed.

Lemma preprocess_perm wallet_data wallet_data' :
  Input.wallet_address wallet_data = Input.wallet_address wallet_data' ->
  dex_transactions wallet_data ≡ₚ dex_transactions wallet_data' ->
  same_frame (_preprocess_dex_transactions wallet_data)
             (_preprocess_dex_transactions wallet_data').
Proof.
  intros Haddr Hperm.
  assert (Hraw : collect_rows wallet_data ≡ₚ collect_rows wallet_data').
  { rewrite !collect_rows_eq, Haddr. now apply Permutation_map. }
  split.
  - rewrite !rows_preprocess. now rewrite Hraw.
  - assert (Hkeys : forall key,
              key ∈ flat_map keys (collect_rows wallet_data)
              <-> key ∈ flat_map keys (collect_rows wallet_data')).
    { intros key. rewrite !list_elem_of_In, !in_flat_map.
      split; intros (row & Hrow & Hkey); exists row; split; try exact Hkey;
        apply list_elem_of_In; apply list_elem_of_In in Hrow.
      - now rewrite <- Hraw.
      - now rewrite Hraw. }
    intros key. unfold _preprocess_dex_transactions.
    destruct (collect_rows wallet_data) as [|row raw],
             (collect_rows wallet_data') as [|row' raw']; cbn [columns].
    + reflexivity.
    + now apply Permutation_nil_cons in Hraw.
    + symmetry in Hraw. now apply Permutation_nil_cons in Hraw.
    + rewrite !elem_of_app, !elem_of_remove_dups. now rewrite Hkeys.
Qed.

Lemma same_features_get (m m' : gmap string value) key :
  same_features m m' -> (get_num m key 0 == get_num m' key 0)%Q.
Proof. intros [_ Hnum]. apply Hnum. Qed.

Lemma score_respects_features (lp lp' swap swap' : gmap string value) :
  same_features lp lp' ->
  same_features swap swap' ->
  ((_calculate_final_score lp swap).1 == (_calculate_final_score lp' swap').1)%Q.
Proof.
  intros Hlp Hswap.
  apply Qle_antisym; apply score_is_monotone;
    first [ rewrite (same_features_get _ _ _ Hlp); apply Qle_refl
          | rewrite (same_features_get _ _ _ Hswap); apply Qle_refl ].
Qed.

Lemma output_same_features (lp lp' swap swap' : gmap string value)
    (count : value) :
  same_features lp lp' ->
  same_features swap swap' ->
  same_features
    (<["transaction_count" := count]> (_sanitize_features (swap ∪ lp)))
    (<["transaction_count" := count]> (_sanitize_features (swap' ∪ lp'))).
Proof.
  intros [Hdl Hlp] [Hds Hswap]. split.
  - unfold _sanitize_features.
    now rewrite !dom_insert_L, !dom_fmap_L, !dom_union_L, Hdl, Hds.
  - intros key. destruct (decide (key = "transaction_count")) as [->|Hne].
    + unfold get_num. now rewrite !lookup_insert_eq.
    + rewrite !get_num_output by exact Hne.
      destruct (swap !! key) as [v|] eqn:E.
      * assert (is_Some (swap' !! key)) as Hsome.
        { apply elem_of_dom. rewrite <- Hds. apply elem_of_dom. eauto. }
        rewrite !get_num_union_l by eauto. apply Hswap.
      * assert (swap' !! key = None) as Hnone.
        { apply not_elem_of_dom. rewrite <- Hds. now apply not_elem_of_dom. }
        rewrite !get_num_union_r by assumption. apply Hlp.
Qed.

(** X20.  The order of the transactions does not matter.  Two batches of one
    wallet whose transactions of the groups tagged "dexes" are the same up
    to their order get the same result from the engine: the same exception,
    or equal scores and features with the same keys and the same numbers. *)
Theorem transaction_order_is_irrelevant now wallet_data wallet_data' :
  Input.wallet_address wallet_data = Input.wallet_address wallet_data' ->
  dex_transactions wallet_data ≡ₚ dex_transactions wallet_data' ->
  same_result (process_wallet now wallet_data)
              (process_wallet now wallet_data').
Proof.
  intros Haddr Hperm.
  pose proof (preprocess_perm _ _ Haddr Hperm) as Hsame.
  pose proof (lp_features_perm now _ _ Hsame) as Hlp.
  pose proof (swap_features_perm _ _ Hsame) as Hswap.
  unfold process_wallet, same_result.
  rewrite <- (same_frame_empty _ _ Hsame), <- (same_frame_len _ _ Hsame).
  destruct (df_empty _); [reflexivity|].
  destruct (_calculate_lp_features now (_preprocess_dex_transactions wallet_data))
    as [lp|e],
    (_calculate_lp_features now (_preprocess_dex_transactions wallet_data'))
    as [lp'|e']; try contradiction; cbn [rbind]; [|exact Hlp].
  destruct (_calculate_swap_features (_preprocess_dex_transactions wallet_data))
    as [swap|e],
    (_calculate_swap_features (_preprocess_dex_transactions wallet_data'))
    as [swap'|e']; try contradiction; cbn [rbind]; [|exact Hswap].
  split.
  - now apply (score_respects_features lp lp' swap swap').
  - now apply output_same_features.
Qed.

Lemma transaction_order_is_irrelevant_witness :
  same_result
    (process_wallet sample_now (dict_of sample_address reversed_sample_data))
    (process_wallet sample_now sample_wallet_message).
Proof.
  apply (transaction_order_is_irrelevant sample_now
           (dict_of sample_address reversed_sample_data)
           sample_wallet_message); [reflexivity|].
  change (dex_transactions (dict_of sample_address reversed_sample_data))
    with (reverse [sample_swap; sample_deposit; sample_withdraw]).
  change (dex_transactions sample_wallet_message)
    with [sample_swap; sample_deposit; sample_withdraw].
  apply reverse_Permutation.
Defined.

(** * Holding time against account age *)






(** * The sanitizer *)

(** X22.  The sanitizer keeps the keys of a feature map and the number under
    each key, leaves no NumPy scalar, and changes nothing when applied to
    its own output. *)
Theorem sanitizer_properties (features : gmap string value) :
  dom (_sanitize_features features) = dom features
  /\ (forall key dflt,
         get_num (_sanitize_features features) key dflt
         = get_num features key dflt)
  /\ (forall key v,
         _sanitize_features features !! key = Some v -> python_number v)
  /\ _sanitize_features (_sanitize_features features)
     = _sanitize_features features.
Proof.
  unfold _sanitize_features. split; [apply dom_fmap_L|]. split; [|split].
  - intros key dflt. unfold get_num. rewrite lookup_fmap.
    destruct (features !! key); [apply num_sanitize | reflexivity].
  - intros key v. rewrite lookup_fmap.
    destruct (features !! key) as [v0|]; [|discriminate].
    intros [= <-]. now destruct v0.
  - rewrite <- map_fmap_compose. apply map_fmap_ext.
    intros key v _. now destruct v.
Qed.

(** * The sample message of the test script *)

(** On [SAMPLE_WALLET_MESSAGE] the engine returns the values of
    [EXPECTED_FEATURES] for every key but [total_deposit_usd], where it
    returns 1000 (the sum of the two token amounts) and the script lists
    500. *)
Example sample_against_expected_features :
  match process_wallet sample_now sample_wallet_message with
  | Ok (_, f) =>
      List.filter
        (fun entry => negb (Qeq_bool (get_num f entry.1 0) entry.2))
        EXPECTED_FEATURES
      = [("total_deposit_usd", 500%Q)]
      /\ (get_num f "total_deposit_usd" 0 == 1000)%Q
  | Raise _ => False
  end.
Proof. vm_compute. split; reflexivity. Qed.

(** * Further checks on the fixtures *)

Lemma normalization_keeps_order_witness :
  (Z.abs (timestamp sample_deposit_row) <= 9223372036)%Z.
Proof.
  destruct (normalization_keeps_order sample_wallet_message) as [_ Hrange].
  apply Hrange. apply list_elem_of_In. vm_compute. right; left; reflexivity.
Defined.

Lemma sanitizer_properties_witness :
  python_number (VInt 3)
  /\ _sanitize_features {["num_swaps" := VNpInt 3]} !! "num_swaps"
     = Some (VInt 3).
Proof.
  destruct (sanitizer_properties {["num_swaps" := VNpInt 3]})
    as (_ & _ & Hplain & _).
  split; [|reflexivity].
  apply (Hplain "num_swaps" (VInt 3)). reflexivity.
Defined.
